(** * The chat page of the document question-answering assistant

    A shallow embedding of the two variants of the page: the mock
    variant ([src/pages/Index.tsx], module [Mock]) and the variant
    wired to the backend (module [Remote]).  Each variant owns a Redux
    slice (a reducer over [ChatState]), a handful of event handlers and,
    for the mock variant, the keyword resolver [generateMockResponse]. *)

From Stdlib Require Import List NArith ZArith Bool Ascii String DecimalString DecimalN Lia.
Import ListNotations.

Set Implicit Arguments.

(** ** JavaScript strings

    A JavaScript string is a sequence of UTF-16 code units. *)

Module JS.

Definition jsstring := list N.

(** String literals of the source, all ASCII. *)
Definition js (s : string) : jsstring :=
  map N_of_ascii (list_ascii_of_string s).

(** [Number.prototype.toString] on a non-negative integer. *)
Definition toString (n : N) : jsstring :=
  js (NilEmpty.string_of_uint (N.to_uint n)).

(** WhiteSpace and LineTerminator code points of ECMAScript, the ones
    [String.prototype.trim] strips.  All of them lie in the BMP. *)
Definition isWhiteSpace (c : N) : bool :=
  ((9 <=? c) && (c <=? 13)            (* TAB LF VT FF CR *)
   || (c =? 32)                       (* SPACE *)
   || (c =? 160)                      (* NBSP *)
   || (c =? 5760)                     (* U+1680 *)
   || ((8192 <=? c) && (c <=? 8202))  (* U+2000 .. U+200A *)
   || (c =? 8232) || (c =? 8233)      (* U+2028 U+2029 *)
   || (c =? 8239)                     (* U+202F *)
   || (c =? 8287)                     (* U+205F *)
   || (c =? 12288)                    (* U+3000 *)
   || (c =? 65279))%N.                (* U+FEFF *)

Fixpoint trimStart (s : jsstring) : jsstring :=
  match s with
  | [] => []
  | c :: rest => if isWhiteSpace c then trimStart rest else s
  end.

Definition trimEnd (s : jsstring) : jsstring := rev (trimStart (rev s)).

Definition trim (s : jsstring) : jsstring := trimEnd (trimStart s).

(** Truthiness of a string: only the empty string is falsy. *)
Definition truthy (s : jsstring) : bool :=
  match s with [] => false | _ :: _ => true end.

Fixpoint startsWith (s p : jsstring) {struct p} : bool :=
  match p, s with
  | [], _ => true
  | _ :: _, [] => false
  | a :: p', b :: s' => (a =? b)%N && startsWith s' p'
  end.

(** [String.prototype.includes]: the search string occurs at some
    position. *)
Fixpoint includes (s kw : jsstring) : bool :=
  startsWith s kw
  || match s with
     | [] => false
     | _ :: s' => includes s' kw
     end.

Definition asciiLower (c : N) : N :=
  if ((65 <=? c) && (c <=? 90))%N then (c + 32)%N else c.

Section CaseMapping.

(** [String.prototype.toLowerCase] maps the string code point by code
    point with the Unicode case table, which is not part of this
    repository.  ASCII is mapped in place, [A]-[Z] to [a]-[z]; what a
    code unit outside ASCII contributes (it may depend on its
    neighbours: a surrogate pair, a final sigma) is given by
    [lowerNonAscii before c after]. *)
Variable lowerNonAscii : jsstring -> N -> jsstring -> jsstring.

Fixpoint lowerFrom (before s : jsstring) : jsstring :=
  match s with
  | [] => []
  | c :: rest =>
      (if (c <? 128)%N then [asciiLower c] else lowerNonAscii before c rest)
        ++ lowerFrom (before ++ [c]) rest
  end.

Definition toLowerCase (s : jsstring) : jsstring := lowerFrom [] s.

End CaseMapping.

End JS.

Import JS.

(** [===] on strings. *)
Fixpoint strictEquals (a b : jsstring) : bool :=
  match a, b with
  | [], [] => true
  | c :: a', d :: b' => (c =? d)%N && strictEquals a' b'
  | _, _ => false
  end.

(** ** Values shared by the two variants *)

Inductive Role := user | assistant.

Inductive Status := indexed | pending.

Definition Status_eqb (a b : Status) : bool :=
  match a, b with
  | indexed, indexed | pending, pending => true
  | _, _ => false
  end.

(** The two clock readings a handler takes when it builds a message:
    [Date.now()] for the id and [new Date()] for the timestamp. *)
Record Clock := { dateNow : N; newDate : N }.

(** How a promise settles. *)
Inductive Outcome (A : Type) :=
| Fulfilled (a : A)
| Rejected.
Arguments Rejected {A}.

(** ** Handlers as programs over the page state

    A handler runs against the state [W] of the page.  It completes,
    raises, or is suspended at an [await]; in the last case the rest of
    the handler, together with the [try] blocks around the [await], runs
    when the promise settles. *)

Inductive Exn := DispatchError | NetworkError | TypeError.

Inductive Result (A : Type) :=
| Ok (a : A)
| Throw (e : Exn)
| Suspended.
Arguments Throw {A} e.
Arguments Suspended {A}.

Definition M (W A : Type) := W -> Result A * W.

Definition ret {W A} (a : A) : M W A := fun w => (Ok a, w).

Definition bind {W A B} (m : M W A) (k : A -> M W B) : M W B :=
  fun w =>
    match m w with
    | (Ok a, w') => k a w'
    | (Throw e, w') => (Throw e, w')
    | (Suspended, w') => (Suspended, w')
    end.

Definition throw {W A} (e : Exn) : M W A := fun w => (Throw e, w).

Definition gets {W A} (f : W -> A) : M W A := fun w => (Ok (f w), w).

Definition modify {W} (f : W -> W) : M W unit := fun w => (Ok tt, f w).

(** [try { body } catch (error) { handler }] *)
Definition try_catch {W A} (body : M W A) (handler : Exn -> M W A) : M W A :=
  fun w =>
    match body w with
    | (Throw e, w') => handler e w'
    | r => r
    end.

(** [try { body } finally { cleanup }]: the cleanup runs on normal and
    on abrupt completion of the body, and an exception of the cleanup
    replaces the completion of the body. *)
Definition try_finally {W A} (body : M W A) (cleanup : M W unit) : M W A :=
  fun w =>
    match body w with
    | (Suspended, w') => (Suspended, w')
    | (r, w') =>
        match cleanup w' with
        | (Ok _, w'') => (r, w'')
        | (Throw e, w'') => (Throw e, w'')
        | (Suspended, w'') => (Suspended, w'')
        end
    end.

(** The value of an awaited promise once it has settled. *)
Definition settled {W A} (o : Outcome A) : M W A :=
  match o with
  | Fulfilled a => ret a
  | Rejected => throw NetworkError
  end.

(** *** Untyped values

    What a reply of the backend carries once decoded: a JSON value.  A
    body that is not JSON reaches the page as the string it is. *)

#[warnings="-register-all"]
Inductive Json :=
| jnull
| jbool (b : bool)
| jnumber (bits : N)                        (* the binary64 pattern of the number *)
| jstring (s : jsstring)
| jarray (items : list Json)
| jobject (members : list (jsstring * Json)).

(** A value of the page that is not typed by what it holds: a JSON
    value, or [undefined]. *)
Inductive Value :=
| undefined
| defined (j : Json).

Definition text (s : jsstring) : Value := defined (jstring s).

(** The member of an object under a key; of two members with one key,
    [JSON.parse] keeps the later. *)
Fixpoint member (key : jsstring) (members : list (jsstring * Json)) : Value :=
  match members with
  | [] => undefined
  | (k, v) :: rest =>
      match member key rest with
      | undefined => if strictEquals k key then defined v else undefined
      | found => found
      end
  end.

(** [object.key], for a key that is no built-in property of strings
    and arrays: reading from [null] and [undefined] raises, an object
    gives its member, any other value gives [undefined]. *)
Definition getProperty {W} (object : Value) (key : jsstring) : M W Value :=
  match object with
  | undefined | defined jnull => throw TypeError
  | defined (jobject members) => ret (member key members)
  | defined _ => ret undefined
  end.

Declare Scope handler_scope.
Delimit Scope handler_scope with handler.
Notation "x <- m ;; k" := (bind m (fun x => k))
  (at level 61, m at next level, right associativity) : handler_scope.
Notation "m ;; k" := (bind m (fun _ => k))
  (at level 61, right associativity) : handler_scope.
Local Open Scope handler_scope.

(** What a call of [dispatch] does besides running the reducer: it
    completes, or it raises before the store is updated (the reducer
    raised), or after (a subscriber raised). *)
Inductive DispatchFault := Completes | RaisesBefore | RaisesAfter.

(** ** The mock variant ([src/pages/Index.tsx]) *)

Module Mock.

Record Source := { title : jsstring; reference : jsstring }.

Record Message := {
  id : jsstring;
  role : Role;
  content : jsstring;
  sources : option (list Source);   (* [sources?: Source[]] *)
  timestamp : N
}.

Record Document := { doc_id : jsstring; name : jsstring; status : Status }.

Record ChatState := {
  messages : list Message;
  isProcessing : bool;
  documents : list Document;
  isIndexing : bool
}.

Definition MOCK_DOCUMENTS : list Document :=
  [ {| doc_id := js "1"; name := js "Q3 Financial Report"; status := indexed |};
    {| doc_id := js "2"; name := js "Customer Service Manual"; status := indexed |};
    {| doc_id := js "3"; name := js "Product Specifications"; status := indexed |};
    {| doc_id := js "4"; name := js "CEO Transcript 2024"; status := indexed |};
    {| doc_id := js "5"; name := js "Market Analysis Report"; status := indexed |} ].

(** *** The Redux slice *)

Definition initialState : ChatState :=
  {| messages := []; isProcessing := false;
     documents := MOCK_DOCUMENTS; isIndexing := false |}.

Inductive Action :=
| addMessage (payload : Message)
| setIsProcessing (payload : bool)
| setIsIndexing (payload : bool)
| simulateIndexing.

Definition markIndexed (doc : Document) : Document :=
  {| doc_id := doc_id doc; name := name doc; status := indexed |}.

Definition reducer (state : ChatState) (action : Action) : ChatState :=
  match action with
  | addMessage payload =>
      {| messages := messages state ++ [payload];
         isProcessing := isProcessing state;
         documents := documents state;
         isIndexing := isIndexing state |}
  | setIsProcessing payload =>
      {| messages := messages state;
         isProcessing := payload;
         documents := documents state;
         isIndexing := isIndexing state |}
  | setIsIndexing payload =>
      {| messages := messages state;
         isProcessing := isProcessing state;
         documents := documents state;
         isIndexing := payload |}
  | simulateIndexing =>
      {| messages := messages state;
         isProcessing := isProcessing state;
         documents := map markIndexed (documents state);
         isIndexing := isIndexing state |}
  end.

(** The store after a sequence of dispatched actions. *)
Definition dispatched (actions : list Action) : ChatState :=
  fold_left reducer actions initialState.

(** [documents.filter((d) => d.status === "indexed").length] *)
Definition indexedCount (docs : list Document) : nat :=
  List.length (filter (fun d => Status_eqb (status d) indexed) docs).

(** *** The keyword resolver *)

Record Resolved := { resolved_content : jsstring; resolved_sources : list Source }.

Definition financialAnswer : Resolved :=
  {| resolved_content := js
       "Based on our Q3 Financial Report, revenue increased by 23% year-over-year, reaching $4.2M in total revenue. The growth was primarily driven by our enterprise segment, which saw a 35% increase. Our customer acquisition cost decreased by 15%, while customer lifetime value increased by 20%.";
     resolved_sources :=
       [ {| title := js "Q3 Financial Report"; reference := js "Page 12, Section 3.2" |};
         {| title := js "Market Analysis Report"; reference := js "Page 8" |} ] |}.

Definition supportAnswer : Resolved :=
  {| resolved_content := js
       "Our customer support team is available 24/7 through multiple channels. You can reach us via email at support@company.com, phone at 1-800-SUPPORT, or through our live chat. According to our service manual, average response time is under 2 hours for email inquiries and immediate for live chat.";
     resolved_sources :=
       [ {| title := js "Customer Service Manual"; reference := js "Chapter 2, Contact Information" |};
         {| title := js "Product Specifications"; reference := js "Support Section" |} ] |}.

Definition productAnswer : Resolved :=
  {| resolved_content := js
       "Our product suite includes three main offerings: Enterprise Platform (with advanced analytics and API access), Professional Plan (with team collaboration features), and Starter Plan (ideal for small teams). Each plan includes 99.9% uptime guarantee, real-time data synchronization, and dedicated support.";
     resolved_sources :=
       [ {| title := js "Product Specifications"; reference := js "Overview, Pages 1-5" |};
         {| title := js "CEO Transcript 2024"; reference := js "Product Roadmap Discussion" |} ] |}.

Definition fallbackAnswer : Resolved :=
  {| resolved_content := js
       "I can only provide information based on the indexed documents. Please ask questions related to our Q3 financial performance, customer support procedures, or product specifications. Feel free to rephrase your question to match the available document corpus.";
     resolved_sources := [] |}.

Section Resolver.

Variable lowerNonAscii : jsstring -> N -> jsstring -> jsstring.

Definition generateMockResponse (query : jsstring) : Resolved :=
  let lowerQuery := toLowerCase lowerNonAscii query in
  if includes lowerQuery (js "revenue") || includes lowerQuery (js "q3")
     || includes lowerQuery (js "financial")
  then financialAnswer
  else if includes lowerQuery (js "contact") || includes lowerQuery (js "support")
          || includes lowerQuery (js "customer")
  then supportAnswer
  else if includes lowerQuery (js "product") || includes lowerQuery (js "feature")
          || includes lowerQuery (js "specification")
  then productAnswer
  else fallbackAnswer.

End Resolver.

(** The resolver as the specification words it: three keyword groups
    tried in a fixed order, the first group with a keyword occurring in
    the lower-cased query decides, and the fallback answers when none
    does. *)
Definition financialKeywords : list jsstring := [js "revenue"; js "q3"; js "financial"].
Definition supportKeywords : list jsstring := [js "contact"; js "support"; js "customer"].
Definition productKeywords : list jsstring := [js "product"; js "feature"; js "specification"].

Definition matchesGroup (lowerQuery : jsstring) (keywords : list jsstring) : bool :=
  existsb (includes lowerQuery) keywords.

Definition priority : list (list jsstring * Resolved) :=
  [ (financialKeywords, financialAnswer);
    (supportKeywords, supportAnswer);
    (productKeywords, productAnswer) ].

Definition resolve_by_priority (lowerQuery : jsstring) : Resolved :=
  match find (fun group => matchesGroup lowerQuery (fst group)) priority with
  | Some group => snd group
  | None => fallbackAnswer
  end.

(** *** The page: store, input buffer and pending timers *)

Inductive Callback :=
| replyTo (userMessage : Message)   (* the timeout of [handleSendMessage] *)
| finishIndexing.                   (* the timeout of [handleIndexDocuments] *)

Record Timer := { callback : Callback; delay : N }.

Record App := {
  store : ChatState;
  input : jsstring;           (* [useState("")] of [ChatInterface] *)
  timers : list Timer;        (* timeouts set and not yet fired *)
  log : list Action           (* the actions that reached the reducer, oldest first *)
}.

Definition initialApp : App :=
  {| store := initialState; input := []; timers := []; log := [] |}.

Definition commit (action : Action) (w : App) : App :=
  {| store := reducer (store w) action; input := input w;
     timers := timers w; log := log w ++ [action] |}.

Definition setInput (value : jsstring) : M App unit :=
  modify (fun w => {| store := store w; input := value;
                      timers := timers w; log := log w |}).

Definition setTimeout (cb : Callback) (ms : N) : M App unit :=
  modify (fun w => {| store := store w; input := input w;
                      timers := timers w ++ [{| callback := cb; delay := ms |}];
                      log := log w |}).

Definition clearTimer (i : nat) (w : App) : App :=
  {| store := store w; input := input w;
     timers := firstn i (timers w) ++ skipn (S i) (timers w); log := log w |}.

Section Page.

Variable fault : Action -> DispatchFault.
Variable lowerNonAscii : jsstring -> N -> jsstring -> jsstring.

Definition dispatch (action : Action) : M App unit :=
  fun w =>
    match fault action with
    | Completes => (Ok tt, commit action w)
    | RaisesBefore => (Throw DispatchError, w)
    | RaisesAfter => (Throw DispatchError, commit action w)
    end.

Definition handleSendMessage (clock : Clock) : M App unit :=
  input <- gets input ;;
  isProcessing <- gets (fun w => isProcessing (store w)) ;;
  if negb (truthy (trim input)) || isProcessing then ret tt
  else
    let userMessage :=
      {| id := toString (dateNow clock); role := user; content := trim input;
         sources := None; timestamp := newDate clock |} in
    dispatch (addMessage userMessage) ;;
    setInput [] ;;
    dispatch (setIsProcessing true) ;;
    setTimeout (replyTo userMessage) 2000.

Definition handleIndexDocuments : M App unit :=
  dispatch (setIsIndexing true) ;;
  setTimeout finishIndexing 2000.

(** The body of a timeout, run when it fires. *)
Definition runCallback (cb : Callback) (clock : Clock) : M App unit :=
  match cb with
  | replyTo userMessage =>
      let r := generateMockResponse lowerNonAscii (content userMessage) in
      let aiMessage :=
        {| id := toString (dateNow clock + 1); role := assistant;
           content := resolved_content r; sources := Some (resolved_sources r);
           timestamp := newDate clock |} in
      dispatch (addMessage aiMessage) ;;
      dispatch (setIsProcessing false)
  | finishIndexing =>
      dispatch simulateIndexing ;;
      dispatch (setIsIndexing false)
  end.

(** The [i]-th pending timeout fires. *)
Definition fireTimer (i : nat) (clock : Clock) : M App unit :=
  fun w =>
    match nth_error (timers w) i with
    | Some t => runCallback (callback t) clock (clearTimer i w)
    | None => (Ok tt, w)
    end.

(** What happens to the page: the user edits the input, sends it,
    clicks the index button, or a timeout fires. *)
Inductive Event :=
| change (value : jsstring)
| send (clock : Clock)
| reindex
| fires (i : nat) (clock : Clock).

Definition handle (e : Event) : M App unit :=
  match e with
  | change value => setInput value
  | send clock => handleSendMessage clock
  | reindex => handleIndexDocuments
  | fires i clock => fireTimer i clock
  end.

(** The page after a sequence of events; an exception that escapes a
    handler is reported and the page goes on from the state it left. *)
Definition run (events : list Event) (w : App) : App :=
  fold_left (fun w e => snd (handle e w)) events w.

End Page.

End Mock.

Definition noFault {A : Type} : A -> DispatchFault := fun _ => Completes.

(** A case table that leaves every code unit outside ASCII as it is;
    used where a concrete table is needed to run the page. *)
Definition keepNonAscii : jsstring -> N -> jsstring -> jsstring :=
  fun _ c _ => [c].

(** ** The variant wired to the backend *)

Module Remote.

Record Source := { title : jsstring; uri : jsstring }.

(** [content] and [sources] hold what was put there: the page copies
    them from the reply without a check. *)
Record Message := {
  id : jsstring;
  role : Role;
  content : Value;               (* [content: string] *)
  sources : Value;               (* [sources?: Source[]] *)
  timestamp : N
}.

(** A source as the reply carries it. *)
Definition sourceJson (source : Source) : Json :=
  jobject [(js "title", jstring (title source)); (js "uri", jstring (uri source))].

Record Document := { doc_id : jsstring; name : jsstring; status : Status }.

Record ChatState := {
  messages : list Message;
  isProcessing : bool;
  documents : list Document;
  isIndexing : bool;
  indexedCount : Z
}.

(** *** The Redux slice *)

Definition initialState : ChatState :=
  {| messages := []; isProcessing := false; documents := [];
     isIndexing := false; indexedCount := 0 |}.

Inductive Action :=
| addMessage (payload : Message)
| setMessages (payload : list Message)
| setIsProcessing (payload : bool)
| setDocuments (payload : list Document)
| setIsIndexing (payload : bool)
| setIndexedCount (payload : Z).

Definition reducer (state : ChatState) (action : Action) : ChatState :=
  match action with
  | addMessage payload =>
      {| messages := messages state ++ [payload];
         isProcessing := isProcessing state; documents := documents state;
         isIndexing := isIndexing state; indexedCount := indexedCount state |}
  | setMessages payload =>
      {| messages := payload;
         isProcessing := isProcessing state; documents := documents state;
         isIndexing := isIndexing state; indexedCount := indexedCount state |}
  | setIsProcessing payload =>
      {| messages := messages state;
         isProcessing := payload; documents := documents state;
         isIndexing := isIndexing state; indexedCount := indexedCount state |}
  | setDocuments payload =>
      {| messages := messages state;
         isProcessing := isProcessing state; documents := payload;
         isIndexing := isIndexing state; indexedCount := indexedCount state |}
  | setIsIndexing payload =>
      {| messages := messages state;
         isProcessing := isProcessing state; documents := documents state;
         isIndexing := payload; indexedCount := indexedCount state |}
  | setIndexedCount payload =>
      {| messages := messages state;
         isProcessing := isProcessing state; documents := documents state;
         isIndexing := isIndexing state; indexedCount := payload |}
  end.

(** The store after a sequence of dispatched actions. *)
Definition dispatched (actions : list Action) : ChatState :=
  fold_left reducer actions initialState.

(** *** The backend, seen from the page

    The four API functions return what the backend sent; the page only
    sees how each promise settles. *)

Record StatusData := { indexed_count : Z }.                 (* [getStatus] *)

(** [postChatMessage] returns [response.data] as it came: any value. *)

Record File := { file_name : jsstring; file_bytes : list N }.

(** Who called [fetchStatusAndDocuments]: the mount effect and its
    interval, or [handleFileUpload]. *)
Inductive Caller := fromEffect | fromUpload.

(** The requests in flight, each standing for the handler suspended on
    it. *)
Inductive Pending :=
| awaitChat (userMessage : Message)
| awaitUpload (file : File)
| awaitStatus (caller : Caller)
| awaitDocuments (caller : Caller).

Record App := {
  store : ChatState;
  input : jsstring;            (* [useState("")] of [ChatInterface] *)
  pending : list Pending;      (* requests sent and not yet settled *)
  console : list jsstring;     (* what [console.error] printed, oldest first *)
  log : list Action            (* the actions that reached the reducer, oldest first *)
}.

Definition initialApp : App :=
  {| store := initialState; input := []; pending := []; console := []; log := [] |}.

Definition commit (action : Action) (w : App) : App :=
  {| store := reducer (store w) action; input := input w;
     pending := pending w; console := console w; log := log w ++ [action] |}.

Definition setInput (value : jsstring) : M App unit :=
  modify (fun w => {| store := store w; input := value; pending := pending w;
                      console := console w; log := log w |}).

Definition console_error (message : jsstring) : M App unit :=
  modify (fun w => {| store := store w; input := input w; pending := pending w;
                      console := console w ++ [message]; log := log w |}).

(** [await] on a request just sent: the handler is suspended. *)
Definition await {A} (request : Pending) : M App A :=
  fun w => (Suspended,
            {| store := store w; input := input w;
               pending := pending w ++ [request];
               console := console w; log := log w |}).

Definition clearPending (i : nat) (w : App) : App :=
  {| store := store w; input := input w;
     pending := firstn i (pending w) ++ skipn (S i) (pending w);
     console := console w; log := log w |}.

(** Where a handler is entered: at its start, or after one of its
    [await]s with the outcome of the promise. *)
Inductive FetchPoint :=
| fetchStart
| afterStatus (o : Outcome StatusData)
| afterDocuments (o : Outcome (list Document)).

Inductive UploadPoint :=
| uploadChange (file : option File)      (* [event.target.files?.[0]] *)
| afterUpload (o : Outcome unit)
| inRefresh (pt : FetchPoint).

Inductive SendPoint :=
| sendClick
| afterChat (userMessage : Message) (o : Outcome Value).

Inductive Reply :=
| chatReply (o : Outcome Value)
| uploadReply (o : Outcome unit)
| statusReply (o : Outcome StatusData)
| documentsReply (o : Outcome (list Document)).

Definition connectivityError : jsstring :=
  js "Sorry, I'm having trouble connecting to the server. Please try again later.".

Section Page.

Variable fault : Action -> DispatchFault.

Definition dispatch (action : Action) : M App unit :=
  fun w =>
    match fault action with
    | Completes => (Ok tt, commit action w)
    | RaisesBefore => (Throw DispatchError, w)
    | RaisesAfter => (Throw DispatchError, commit action w)
    end.

Definition fetchStatusAndDocuments (caller : Caller) (pt : FetchPoint)
  : M App unit :=
  try_catch
    match pt with
    | fetchStart => await (awaitStatus caller)
    | afterStatus o =>
        statusData <- settled o ;;
        dispatch (setIndexedCount (indexed_count statusData)) ;;
        await (awaitDocuments caller)
    | afterDocuments o =>
        documentsData <- settled o ;;
        dispatch (setDocuments documentsData)
    end
    (fun _ => console_error (js "Failed to fetch status or documents")).

Definition handleFileUpload (pt : UploadPoint) : M App unit :=
  let guarded (body : M App unit) :=
    try_finally
      (try_catch body (fun _ => console_error (js "Failed to upload document")))
      (dispatch (setIsIndexing false)) in
  match pt with
  | uploadChange None => ret tt
  | uploadChange (Some file) =>
      dispatch (setIsIndexing true) ;;
      guarded (await (awaitUpload file))
  | afterUpload o =>
      guarded (settled o ;; fetchStatusAndDocuments fromUpload fetchStart)
  | inRefresh pt' =>
      guarded (fetchStatusAndDocuments fromUpload pt')
  end.

(** The clock readings of one entry are taken at one instant. *)
Definition handleSendMessage (pt : SendPoint) (clock : Clock) : M App unit :=
  let guarded (body : M App unit) :=
    try_finally
      (try_catch body
         (fun _ =>
            console_error (js "Failed to send message") ;;
            let errorMessage :=
              {| id := toString (dateNow clock + 1); role := assistant;
                 content := text connectivityError; sources := undefined;
                 timestamp := newDate clock |} in
            dispatch (addMessage errorMessage)))
      (dispatch (setIsProcessing false)) in
  match pt with
  | sendClick =>
      input <- gets input ;;
      isProcessing <- gets (fun w => isProcessing (store w)) ;;
      if negb (truthy (trim input)) || isProcessing then ret tt
      else
        let userMessage :=
          {| id := toString (dateNow clock); role := user;
             content := text (trim input);
             sources := undefined; timestamp := newDate clock |} in
        dispatch (addMessage userMessage) ;;
        setInput [] ;;
        dispatch (setIsProcessing true) ;;
        guarded (await (awaitChat userMessage))
  | afterChat userMessage o =>
      guarded
        (response <- settled o ;;
         response_text <- getProperty response (js "response_text") ;;
         response_sources <- getProperty response (js "sources") ;;
         let aiMessage :=
           {| id := toString (dateNow clock + 1); role := assistant;
              content := response_text;
              sources := response_sources;
              timestamp := newDate clock |} in
         dispatch (addMessage aiMessage))
  end.

(** The handler that a settling request wakes up. *)
Definition resume (request : Pending) (reply : Reply) (clock : Clock)
  : option (M App unit) :=
  match request, reply with
  | awaitChat userMessage, chatReply o =>
      Some (handleSendMessage (afterChat userMessage o) clock)
  | awaitUpload _, uploadReply o =>
      Some (handleFileUpload (afterUpload o))
  | awaitStatus fromEffect, statusReply o =>
      Some (fetchStatusAndDocuments fromEffect (afterStatus o))
  | awaitStatus fromUpload, statusReply o =>
      Some (handleFileUpload (inRefresh (afterStatus o)))
  | awaitDocuments fromEffect, documentsReply o =>
      Some (fetchStatusAndDocuments fromEffect (afterDocuments o))
  | awaitDocuments fromUpload, documentsReply o =>
      Some (handleFileUpload (inRefresh (afterDocuments o)))
  | _, _ => None
  end.

(** The [i]-th request in flight settles. *)
Definition settle (i : nat) (reply : Reply) (clock : Clock) : M App unit :=
  fun w =>
    match nth_error (pending w) i with
    | Some request =>
        match resume request reply clock with
        | Some k => k (clearPending i w)
        | None => (Ok tt, w)
        end
    | None => (Ok tt, w)
    end.

(** What happens to the page: the user edits the input, sends it,
    picks a file, the mount effect or its interval asks for a refresh,
    or a request settles. *)
Inductive Event :=
| change (value : jsstring)
| send (clock : Clock)
| chooseFile (file : option File)
| refresh
| settles (i : nat) (reply : Reply) (clock : Clock).

Definition handle (e : Event) : M App unit :=
  match e with
  | change value => setInput value
  | send clock => handleSendMessage sendClick clock
  | chooseFile file => handleFileUpload (uploadChange file)
  | refresh => fetchStatusAndDocuments fromEffect fetchStart
  | settles i reply clock => settle i reply clock
  end.

(** The page after a sequence of events; an exception that escapes a
    handler is reported and the page goes on from the state it left. *)
Definition run (events : list Event) (w : App) : App :=
  fold_left (fun w e => snd (handle e w)) events w.

End Page.

End Remote.

(** ** Predicates of the statements *)

(** Code units that [toLowerCase] leaves in place: ASCII other than
    the capital letters. *)
Definition lowerAscii (c : N) : bool := ((c <? 128) && (asciiLower c =? c))%N.

Definition Status_le (before after : Status) : bool :=
  match before, after with
  | indexed, pending => false
  | _, _ => true
  end.

Definition allIndexed (docs : list Mock.Document) : bool :=
  forallb (fun d => Status_eqb (Mock.status d) indexed) docs.

(** What the status card shows when nothing is pending: every document
    is indexed, [indexedCount] is the number of documents, and no
    pending document is there to be shown. *)
Definition fullyIndexed (docs : list Mock.Document) : Prop :=
  allIndexed docs = true
  /\ Mock.indexedCount docs = List.length docs
  /\ existsb (fun d => Status_eqb (Mock.status d) pending) docs = false.

(** A document after a store operation: the same document, its status
    kept or moved from pending to indexed. *)
Definition advanced (before after : Mock.Document) : Prop :=
  Mock.doc_id after = Mock.doc_id before /\ Mock.name after = Mock.name before
  /\ Status_le (Mock.status before) (Mock.status after) = true.

(** A handler keeps an invariant of the page, however it ends. *)
Definition preserves {W A : Type} (I : W -> Prop) (m : M W A) : Prop :=
  forall w, I w -> I (snd (m w)).


(** A property of the store, seen on the mock page. *)
Definition storeSatisfies (P : Mock.ChatState -> Prop) (w : Mock.App) : Prop :=
  P (Mock.store w).


(** Clock readings and pages for concrete runs. *)
Definition noon : Clock := {| dateNow := 1700000000000; newDate := 1700000000000 |}.
Definition later : Clock := {| dateNow := 1700000002000; newDate := 1700000002000 |}.

(** The backend variant right after a query has been sent. *)
Definition busyRemote : Remote.App :=
  Remote.run noFault [Remote.change (js "hello"); Remote.send noon] Remote.initialApp.

(** What one accepted submission does to the page, in the mock variant:
    at once, one user message is appended, [isProcessing] is raised and
    one timeout is set; and when that timeout fires, at whatever state
    [w2] the page has by then, one assistant message is appended and
    [isProcessing] is dropped. *)
Definition mockSubmission (lowerNonAscii : jsstring -> N -> jsstring -> jsstring)
  (clock : Clock) (w : Mock.App) : Prop :=
  exists userMessage w',
    Mock.handleSendMessage noFault clock w = (Ok tt, w')
    /\ Mock.role userMessage = user
    /\ Mock.content userMessage = trim (Mock.input w)
    /\ Mock.messages (Mock.store w') = Mock.messages (Mock.store w) ++ [userMessage]
    /\ Mock.isProcessing (Mock.store w') = true
    /\ Mock.log w' = Mock.log w ++ [Mock.addMessage userMessage; Mock.setIsProcessing true]
    /\ Mock.timers w'
       = Mock.timers w ++ [{| Mock.callback := Mock.replyTo userMessage; Mock.delay := 2000 |}]
    /\ forall (clock' : Clock) (w2 : Mock.App),
       exists aiMessage w3,
         Mock.runCallback noFault lowerNonAscii (Mock.replyTo userMessage) clock' w2
         = (Ok tt, w3)
         /\ Mock.role aiMessage = assistant
         /\ Mock.messages (Mock.store w3) = Mock.messages (Mock.store w2) ++ [aiMessage]
         /\ Mock.isProcessing (Mock.store w3) = false
         /\ Mock.log w3
            = Mock.log w2 ++ [Mock.addMessage aiMessage; Mock.setIsProcessing false]
         /\ Mock.timers w3 = Mock.timers w2.

(** The same in the variant wired to the backend: one request goes out,
    and however it settles ([o]), one assistant message is appended. *)
Definition remoteSubmission (clock : Clock) (w : Remote.App) : Prop :=
  exists userMessage w',
    Remote.handleSendMessage noFault Remote.sendClick clock w = (Suspended, w')
    /\ Remote.role userMessage = user
    /\ Remote.content userMessage = text (trim (Remote.input w))
    /\ Remote.messages (Remote.store w') = Remote.messages (Remote.store w) ++ [userMessage]
    /\ Remote.isProcessing (Remote.store w') = true
    /\ Remote.log w'
       = Remote.log w ++ [Remote.addMessage userMessage; Remote.setIsProcessing true]
    /\ Remote.pending w' = Remote.pending w ++ [Remote.awaitChat userMessage]
    /\ forall (o : Outcome Value) (clock' : Clock) (w2 : Remote.App),
       exists aiMessage w3,
         Remote.handleSendMessage noFault (Remote.afterChat userMessage o) clock' w2
         = (Ok tt, w3)
         /\ Remote.role aiMessage = assistant
         /\ Remote.messages (Remote.store w3)
            = Remote.messages (Remote.store w2) ++ [aiMessage]
         /\ Remote.isProcessing (Remote.store w3) = false
         /\ Remote.log w3
            = Remote.log w2 ++ [Remote.addMessage aiMessage; Remote.setIsProcessing false]
         /\ Remote.pending w3 = Remote.pending w2.


(** A store whose subscribers raise on every appended message. *)
Definition everyAppendRaises (action : Remote.Action) : DispatchFault :=
  match action with
  | Remote.addMessage _ => RaisesAfter
  | _ => Completes
  end.

(** A failure that a handler of the document panel has swallowed: the
    handler returned normally from [w], printed [message] on the console
    and changed nothing else, but for [isIndexing], which it dropped
    when [clears] holds. *)
Definition swallowed (run : Result unit * Remote.App) (w : Remote.App)
  (message : jsstring) (clears : bool) : Prop :=
  let w' := snd run in
  fst run = Ok tt
  /\ Remote.documents (Remote.store w') = Remote.documents (Remote.store w)
  /\ Remote.indexedCount (Remote.store w') = Remote.indexedCount (Remote.store w)
  /\ Remote.messages (Remote.store w') = Remote.messages (Remote.store w)
  /\ Remote.isProcessing (Remote.store w') = Remote.isProcessing (Remote.store w)
  /\ Remote.isIndexing (Remote.store w')
     = (if clears then false else Remote.isIndexing (Remote.store w))
  /\ Remote.input w' = Remote.input w
  /\ Remote.pending w' = Remote.pending w
  /\ Remote.console w' = Remote.console w ++ [message]
  /\ Remote.log w'
     = Remote.log w ++ (if clears then [Remote.setIsIndexing false] else []).

(** The user message of [busyRemote], and a reply of the backend. *)
Definition helloMessage : Remote.Message :=
  {| Remote.id := toString (dateNow noon); Remote.role := user;
     Remote.content := text (js "hello"); Remote.sources := undefined;
     Remote.timestamp := newDate noon |}.

Definition helloResponse : Value :=
  defined
    (jobject
       [ (js "response_text", jstring (js "Hello! Ask me about your documents."));
         (js "sources",
          jarray [ Remote.sourceJson {| Remote.title := js "notes.txt";
                                        Remote.uri := js "file:///notes.txt" |} ]) ]).

(** ** The controls of the page

    What the view lets through to the handlers: a disabled control
    fires no event. *)

(** A call of an [async] function that is not awaited: what it raises
    rejects its promise and the caller goes on. *)
Definition detached {W A : Type} (m : M W A) : M W unit :=
  fun w => (Ok tt, snd (m w)).

Record KeyboardEvent := { key : jsstring; shiftKey : bool }.

Module MockView.

(** [disabled={!input.trim() || isProcessing}] of the send button. *)
Definition sendDisabled (w : Mock.App) : bool :=
  negb (truthy (trim (Mock.input w))) || Mock.isProcessing (Mock.store w).

(** [disabled={isProcessing}] of the textarea. *)
Definition textareaDisabled (w : Mock.App) : bool :=
  Mock.isProcessing (Mock.store w).

(** [disabled={isIndexing}] of the index button. *)
Definition indexDisabled (w : Mock.App) : bool :=
  Mock.isIndexing (Mock.store w).

Section Controls.

Variable fault : Mock.Action -> DispatchFault.
Variable lowerNonAscii : jsstring -> N -> jsstring -> jsstring.

(** The result tells whether [preventDefault] was called. *)
Definition handleKeyPress (e : KeyboardEvent) (clock : Clock) : M Mock.App bool :=
  if strictEquals (key e) (js "Enter") && negb (shiftKey e)
  then detached (Mock.handleSendMessage fault clock) ;; ret true
  else ret false.

(** What the user and the timers do to the page. *)
Inductive Gesture :=
| types (value : jsstring)                      (* [onChange] of the textarea *)
| clicksSend (clock : Clock)                    (* [onClick] of the send button *)
| presses (e : KeyboardEvent) (clock : Clock)   (* [onKeyPress] of the textarea *)
| clicksIndex                                   (* [onClick] of the index button *)
| elapses (i : nat) (clock : Clock).            (* the [i]-th timeout fires *)

Definition available (w : Mock.App) (g : Gesture) : bool :=
  match g with
  | types _ => negb (textareaDisabled w)
  | clicksSend _ => negb (sendDisabled w)
  | presses _ _ => negb (textareaDisabled w)
  | clicksIndex => negb (indexDisabled w)
  | elapses _ _ => true
  end.

Definition perform (g : Gesture) : M Mock.App unit :=
  fun w =>
    if available w g then
      match g with
      | types value => Mock.setInput value w
      | clicksSend clock => Mock.handleSendMessage fault clock w
      | presses e clock => (handleKeyPress e clock ;; ret tt) w
      | clicksIndex => Mock.handleIndexDocuments fault w
      | elapses i clock => Mock.fireTimer fault lowerNonAscii i clock w
      end
    else (Ok tt, w).

Definition use (gestures : list Gesture) (w : Mock.App) : Mock.App :=
  fold_left (fun w g => snd (perform g w)) gestures w.

End Controls.

End MockView.

Module RemoteView.

(** [disabled={!input.trim() || isProcessing}] of the send button. *)
Definition sendDisabled (w : Remote.App) : bool :=
  negb (truthy (trim (Remote.input w))) || Remote.isProcessing (Remote.store w).

(** [disabled={isProcessing}] of the textarea. *)
Definition textareaDisabled (w : Remote.App) : bool :=
  Remote.isProcessing (Remote.store w).

(** [disabled={isIndexing}] of the upload button, the only way to the
    hidden file input. *)
Definition uploadDisabled (w : Remote.App) : bool :=
  Remote.isIndexing (Remote.store w).

Section Controls.

Variable fault : Remote.Action -> DispatchFault.

(** The result tells whether [preventDefault] was called. *)
Definition handleKeyPress (e : KeyboardEvent) (clock : Clock) : M Remote.App bool :=
  if strictEquals (key e) (js "Enter") && negb (shiftKey e)
  then detached (Remote.handleSendMessage fault Remote.sendClick clock) ;; ret true
  else ret false.

(** What the user, the refresh interval and the backend do to the
    page. *)
Inductive Gesture :=
| types (value : jsstring)                      (* [onChange] of the textarea *)
| clicksSend (clock : Clock)                    (* [onClick] of the send button *)
| presses (e : KeyboardEvent) (clock : Clock)   (* [onKeyPress] of the textarea *)
| picksFile (file : option Remote.File)         (* [onChange] of the file input *)
| ticks                                         (* the mount effect or its interval *)
| answers (i : nat) (reply : Remote.Reply) (clock : Clock).

Definition available (w : Remote.App) (g : Gesture) : bool :=
  match g with
  | types _ => negb (textareaDisabled w)
  | clicksSend _ => negb (sendDisabled w)
  | presses _ _ => negb (textareaDisabled w)
  | picksFile _ => negb (uploadDisabled w)
  | ticks => true
  | answers _ _ _ => true
  end.

Definition perform (g : Gesture) : M Remote.App unit :=
  fun w =>
    if available w g then
      match g with
      | types value => Remote.setInput value w
      | clicksSend clock => Remote.handleSendMessage fault Remote.sendClick clock w
      | presses e clock => (handleKeyPress e clock ;; ret tt) w
      | picksFile file => Remote.handleFileUpload fault (Remote.uploadChange file) w
      | ticks => Remote.fetchStatusAndDocuments fault Remote.fromEffect Remote.fetchStart w
      | answers i reply clock => Remote.settle fault i reply clock w
      end
    else (Ok tt, w).

Definition use (gestures : list Gesture) (w : Remote.App) : Remote.App :=
  fold_left (fun w g => snd (perform g w)) gestures w.

End Controls.

End RemoteView.

(** ** Shapes of the page state *)

(** The user messages whose reply timeout is pending. *)
Definition awaitedReplies (timers : list Mock.Timer) : list Mock.Message :=
  flat_map (fun t => match Mock.callback t with
                     | Mock.replyTo userMessage => [userMessage]
                     | Mock.finishIndexing => []
                     end) timers.

(** The number of pending timeouts of [handleIndexDocuments]. *)
Definition indexTimers (timers : list Mock.Timer) : nat :=
  List.length (filter (fun t => match Mock.callback t with
                                | Mock.finishIndexing => true
                                | Mock.replyTo _ => false
                                end) timers).

(** A conversation of the mock page in which every question has its
    answer: user and assistant messages alternate, and each assistant
    message carries what the resolver gives for the content of the user
    message before it. *)
Inductive answered (lowerNonAscii : jsstring -> N -> jsstring -> jsstring)
  : list Mock.Message -> Prop :=
| answered_nil : answered lowerNonAscii []
| answered_more (ms : list Mock.Message) (u a : Mock.Message) :
    answered lowerNonAscii ms ->
    Mock.role u = user ->
    Mock.role a = assistant ->
    Mock.content a
    = Mock.resolved_content (Mock.generateMockResponse lowerNonAscii (Mock.content u)) ->
    Mock.sources a
    = Some (Mock.resolved_sources (Mock.generateMockResponse lowerNonAscii (Mock.content u))) ->
    answered lowerNonAscii (ms ++ [u; a]).

(** The mock page in order: while [isProcessing] holds the conversation
    ends with one open question, the one a reply timeout is pending for;
    otherwise every question is answered and no reply timeout is
    pending. *)
Definition mockConversation (lowerNonAscii : jsstring -> N -> jsstring -> jsstring)
  (w : Mock.App) : Prop :=
  if Mock.isProcessing (Mock.store w)
  then exists ms u,
         Mock.messages (Mock.store w) = ms ++ [u]
         /\ answered lowerNonAscii ms
         /\ Mock.role u = user
         /\ awaitedReplies (Mock.timers w) = [u]
  else answered lowerNonAscii (Mock.messages (Mock.store w))
       /\ awaitedReplies (Mock.timers w) = [].

(** The user messages whose chat request is in flight. *)
Definition awaitedChats (pending : list Remote.Pending) : list Remote.Message :=
  flat_map (fun p => match p with
                     | Remote.awaitChat userMessage => [userMessage]
                     | _ => []
                     end) pending.

(** The requests in flight that belong to an upload: the upload itself
    or a read of the refresh that follows it. *)
Definition uploadFlows (pending : list Remote.Pending) : nat :=
  List.length (filter (fun p => match p with
                                | Remote.awaitUpload _
                                | Remote.awaitStatus Remote.fromUpload
                                | Remote.awaitDocuments Remote.fromUpload => true
                                | _ => false
                                end) pending).

(** A conversation of the backend page in which every question has its
    answer: user and assistant messages alternate. *)
Inductive exchanged : list Remote.Message -> Prop :=
| exchanged_nil : exchanged []
| exchanged_more (ms : list Remote.Message) (u a : Remote.Message) :
    exchanged ms ->
    Remote.role u = user ->
    Remote.role a = assistant ->
    exchanged (ms ++ [u; a]).

Definition remoteConversation (w : Remote.App) : Prop :=
  if Remote.isProcessing (Remote.store w)
  then exists ms u,
         Remote.messages (Remote.store w) = ms ++ [u]
         /\ exchanged ms
         /\ Remote.role u = user
         /\ awaitedChats (Remote.pending w) = [u]
  else exchanged (Remote.messages (Remote.store w))
       /\ awaitedChats (Remote.pending w) = [].

(** A string as [trim] leaves it, and not empty. *)
Definition trimmed (s : jsstring) : Prop := truthy s = true /\ trim s = s.

(** A string that does not start with white space. *)
Definition noLead (s : jsstring) : bool :=
  match s with
  | [] => true
  | c :: _ => negb (isWhiteSpace c)
  end.

(** The stores whose user messages all have a content that is [good]. *)
Definition mockUsers (good : jsstring -> Prop) (state : Mock.ChatState) : Prop :=
  Forall (fun m => Mock.role m = user -> good (Mock.content m)) (Mock.messages state).

Definition remoteUsers (good : jsstring -> Prop) (state : Remote.ChatState) : Prop :=
  Forall (fun m => Remote.role m = user ->
                   exists s, Remote.content m = text s /\ good s)
    (Remote.messages state).

(** An action that keeps a property of the backend store. *)
Definition remoteKeeps (I : Remote.ChatState -> Prop) (action : Remote.Action) : Prop :=
  forall state, I state -> I (Remote.reducer state action).

(** The controls of the mock page in order: a timeout of
    [handleIndexDocuments] is pending exactly while [isIndexing] holds,
    and only one; and while [isProcessing] holds the input is empty. *)
Definition mockControlsInOrder (w : Mock.App) : Prop :=
  indexTimers (Mock.timers w) = (if Mock.isIndexing (Mock.store w) then 1 else 0)
  /\ (if Mock.isProcessing (Mock.store w) then Mock.input w = [] else True).

(** The controls of the backend page in order: requests of an upload
    are in flight exactly while [isIndexing] holds, one at a time; and
    while [isProcessing] holds the input is empty. *)
Definition remoteControlsInOrder (w : Remote.App) : Prop :=
  uploadFlows (Remote.pending w) = (if Remote.isIndexing (Remote.store w) then 1 else 0)
  /\ (if Remote.isProcessing (Remote.store w) then Remote.input w = [] else True).

(** A store that raises on every action of the document panel but the
    setting of [isIndexing]. *)
Definition panelUpdatesRaise (action : Remote.Action) : DispatchFault :=
  match action with
  | Remote.setIndexedCount _ | Remote.setDocuments _ => RaisesBefore
  | _ => Completes
  end.

(** What [body.key] gives when it does not raise. *)
Definition readMember (body : Value) (key : jsstring) : Value :=
  match body with
  | defined (jobject members) => member key members
  | _ => undefined
  end.

(** * Properties *)

Unset Implicit Arguments.

(** ** Strings *)

Section StringFacts.

Lemma startsWith_app (p r : jsstring) : startsWith (p ++ r) p = true.
Proof.
  induction p as [|c p IH]; simpl; [reflexivity|].
  now rewrite N.eqb_refl.
Qed.

Lemma startsWith_split (p s : jsstring) :
  startsWith s p = true -> exists r, s = p ++ r.
Proof.
  revert s; induction p as [|c p IH]; intros s H.
  - now exists s.
  - destruct s as [|d s]; simpl in H; [discriminate|].
    apply andb_prop in H as [Hc Hp].
    apply N.eqb_eq in Hc; subst d.
    destruct (IH _ Hp) as [r ->]. now exists r.
Qed.

Lemma includes_unfold (s kw : jsstring) :
  includes s kw
  = startsWith s kw || match s with [] => false | _ :: s' => includes s' kw end.
Proof. destruct s; reflexivity. Qed.

Lemma includes_app (a kw b : jsstring) : includes (a ++ kw ++ b) kw = true.
Proof.
  induction a as [|c a IH]; simpl.
  - rewrite includes_unfold, startsWith_app. reflexivity.
  - rewrite IH. apply orb_true_r.
Qed.

Lemma includes_split (s kw : jsstring) :
  includes s kw = true -> exists a b, s = a ++ kw ++ b.
Proof.
  induction s as [|c s IH]; simpl; intros H.
  - rewrite orb_false_r in H. apply startsWith_split in H as [r Hr].
    now exists [], r.
  - apply orb_prop in H as [H|H].
    + apply startsWith_split in H as [r Hr]. now exists [], r.
    + destruct (IH H) as (a & b & ->). now exists (c :: a), b.
Qed.

Variable lowerNonAscii : jsstring -> N -> jsstring -> jsstring.

(** Lower-casing a string works through a prefix and goes on with the
    rest; what the prefix becomes may depend on the rest. *)
Lemma lowerFrom_app (before a b : jsstring) :
  exists a', lowerFrom lowerNonAscii before (a ++ b)
             = a' ++ lowerFrom lowerNonAscii (before ++ a) b.
Proof.
  revert before; induction a as [|c a IH]; intros before; simpl.
  - exists []. now rewrite app_nil_r.
  - destruct (IH (before ++ [c])) as [a' Ha'].
    exists ((if (c <? 128)%N then [asciiLower c]
             else lowerNonAscii before c (a ++ b)) ++ a').
    rewrite Ha', <- !app_assoc. reflexivity.
Qed.

Lemma lowerFrom_lowerAscii (before kw rest : jsstring) :
  forallb lowerAscii kw = true ->
  lowerFrom lowerNonAscii before (kw ++ rest)
  = kw ++ lowerFrom lowerNonAscii (before ++ kw) rest.
Proof.
  revert before; induction kw as [|c kw IH]; intros before H; simpl.
  - now rewrite app_nil_r.
  - simpl in H. apply andb_prop in H as [Hc Hkw].
    unfold lowerAscii in Hc. apply andb_prop in Hc as [H1 H2].
    rewrite H1. apply N.eqb_eq in H2. rewrite H2. simpl.
    rewrite (IH _ Hkw), <- app_assoc. reflexivity.
Qed.

(** A lower-case ASCII keyword that occurs in the query occurs in the
    lower-cased query. *)
Lemma includes_toLowerCase (query kw : jsstring) :
  forallb lowerAscii kw = true ->
  includes query kw = true ->
  includes (toLowerCase lowerNonAscii query) kw = true.
Proof.
  intros Hkw H. apply includes_split in H as (a & b & ->).
  unfold toLowerCase.
  destruct (lowerFrom_app [] a (kw ++ b)) as [a' ->].
  rewrite (lowerFrom_lowerAscii _ _ _ Hkw).
  apply includes_app.
Qed.

End StringFacts.

Example trim_blank : trim (js "   ") = [].
Proof. reflexivity. Qed.

Example trim_padded : trim (js "  hi there ") = js "hi there".
Proof. reflexivity. Qed.

Example toLowerCase_ascii :
  toLowerCase keepNonAscii (js "What was the Q3 revenue?") = js "what was the q3 revenue?".
Proof. reflexivity. Qed.

Example toString_1700 : toString 1700 = js "1700".
Proof. reflexivity. Qed.

(** ** The keyword resolver *)

Section ResolverFacts.

Import Mock.

Variable lowerNonAscii : jsstring -> N -> jsstring -> jsstring.

Lemma generateMockResponse_cases (query : jsstring) :
  let lowerQuery := toLowerCase lowerNonAscii query in
  generateMockResponse lowerNonAscii query
  = if matchesGroup lowerQuery financialKeywords then financialAnswer
    else if matchesGroup lowerQuery supportKeywords then supportAnswer
    else if matchesGroup lowerQuery productKeywords then productAnswer
    else fallbackAnswer.
Proof.
  unfold generateMockResponse, matchesGroup, financialKeywords,
    supportKeywords, productKeywords. simpl existsb.
  now rewrite !orb_false_r, <- !orb_assoc.
Qed.

Lemma resolve_by_priority_cases (lowerQuery : jsstring) :
  resolve_by_priority lowerQuery
  = if matchesGroup lowerQuery financialKeywords then financialAnswer
    else if matchesGroup lowerQuery supportKeywords then supportAnswer
    else if matchesGroup lowerQuery productKeywords then productAnswer
    else fallbackAnswer.
Proof.
  cbv beta iota delta [resolve_by_priority priority find fst].
  destruct (matchesGroup lowerQuery financialKeywords); [reflexivity|].
  destruct (matchesGroup lowerQuery supportKeywords); [reflexivity|].
  destruct (matchesGroup lowerQuery productKeywords); reflexivity.
Qed.

Lemma matchesGroup_keyword (lowerQuery kw : jsstring) (keywords : list jsstring) :
  In kw keywords -> includes lowerQuery kw = true ->
  matchesGroup lowerQuery keywords = true.
Proof.
  intros Hin H. apply existsb_exists. now exists kw.
Qed.

End ResolverFacts.

(** C3. The local resolver [generateMockResponse] is a pure function of
    its query: two calls with the same query return the same content and
    sources, and indeed the answer depends on the lower-cased query
    alone.  It refines the resolver of the specification, which tries
    the keyword groups in the order financial, support, product and
    falls back when none matches: a match of the financial group decides
    whatever else matches, the support group decides only when the
    financial group does not match, the product group only when neither
    does.  In particular a query in which both "revenue" and "support"
    occur gets the financial answer. *)
Theorem generateMockResponse_priority
  (lowerNonAscii : jsstring -> N -> jsstring -> jsstring) (query : jsstring) :
  let lowerQuery := toLowerCase lowerNonAscii query in
  let answer := Mock.generateMockResponse lowerNonAscii query in
  (forall query', query' = query ->
     Mock.generateMockResponse lowerNonAscii query' = answer)
  /\ (forall query', toLowerCase lowerNonAscii query' = lowerQuery ->
        Mock.generateMockResponse lowerNonAscii query' = answer)
  /\ answer = Mock.resolve_by_priority lowerQuery
  /\ (Mock.matchesGroup lowerQuery Mock.financialKeywords = true ->
      answer = Mock.financialAnswer)
  /\ (Mock.matchesGroup lowerQuery Mock.financialKeywords = false ->
      Mock.matchesGroup lowerQuery Mock.supportKeywords = true ->
      answer = Mock.supportAnswer)
  /\ (Mock.matchesGroup lowerQuery Mock.financialKeywords = false ->
      Mock.matchesGroup lowerQuery Mock.supportKeywords = false ->
      Mock.matchesGroup lowerQuery Mock.productKeywords = true ->
      answer = Mock.productAnswer)
  /\ (Mock.matchesGroup lowerQuery Mock.financialKeywords = false ->
      Mock.matchesGroup lowerQuery Mock.supportKeywords = false ->
      Mock.matchesGroup lowerQuery Mock.productKeywords = false ->
      answer = Mock.fallbackAnswer)
  /\ (includes query (js "revenue") = true ->
      includes query (js "support") = true ->
      answer = Mock.financialAnswer).
Proof.
  intros lowerQuery answer. subst answer.
  pose proof (generateMockResponse_cases lowerNonAscii query) as Hq.
  cbv zeta in Hq. fold lowerQuery in Hq.
  repeat split.
  - now intros query' ->.
  - intros query' H.
    rewrite (generateMockResponse_cases lowerNonAscii query'). cbv zeta.
    now rewrite H, Hq.
  - now rewrite Hq, resolve_by_priority_cases.
  - intros H. now rewrite Hq, H.
  - intros H1 H2. now rewrite Hq, H1, H2.
  - intros H1 H2 H3. now rewrite Hq, H1, H2, H3.
  - intros H1 H2 H3. now rewrite Hq, H1, H2, H3.
  - intros Hrev _. rewrite Hq.
    rewrite (matchesGroup_keyword lowerQuery (js "revenue")); [reflexivity | |].
    + simpl. auto.
    + apply includes_toLowerCase; [reflexivity | exact Hrev].
Qed.

Lemma generateMockResponse_priority_witness :
  includes (js "support: where is the revenue?") (js "revenue") = true
  /\ includes (js "support: where is the revenue?") (js "support") = true
  /\ Mock.generateMockResponse keepNonAscii (js "support: where is the revenue?")
     = Mock.financialAnswer.
Proof.
  split; [reflexivity | split; [reflexivity |]].
  apply (generateMockResponse_priority keepNonAscii
           (js "support: where is the revenue?")); reflexivity.
Defined.

(** C9. With the local resolver the input "What was the Q3 revenue?"
    yields a content in which "23%" and "$4.2M" occur and a list of two
    sources, the first of them titled "Q3 Financial Report"; and that is
    the content and the sources of the assistant message the page
    appends for this input. *)
Theorem q3_revenue_answer
  (lowerNonAscii : jsstring -> N -> jsstring -> jsstring) (clock clock' : Clock) :
  let answer := Mock.generateMockResponse lowerNonAscii (js "What was the Q3 revenue?") in
  includes (Mock.resolved_content answer) (js "23%") = true
  /\ includes (Mock.resolved_content answer) (js "$4.2M") = true
  /\ List.length (Mock.resolved_sources answer) = 2
  /\ option_map Mock.title (hd_error (Mock.resolved_sources answer))
     = Some (js "Q3 Financial Report")
  /\ (let replied :=
        Mock.run noFault lowerNonAscii
          [Mock.change (js "What was the Q3 revenue?"); Mock.send clock;
           Mock.fires 0 clock']
          Mock.initialApp in
      map Mock.role (Mock.messages (Mock.store replied)) = [user; assistant]
      /\ map Mock.content (Mock.messages (Mock.store replied))
         = [js "What was the Q3 revenue?"; Mock.resolved_content answer]
      /\ map Mock.sources (Mock.messages (Mock.store replied))
         = [None; Some (Mock.resolved_sources answer)]).
Proof.
  cbv zeta. repeat split; vm_compute; reflexivity.
Qed.

(** ** Invariants of handlers *)

Section Preservation.

Context {W : Type} (I : W -> Prop).

Lemma preserves_ret {A} (a : A) : preserves I (ret a).
Proof. intros w H. exact H. Qed.

Lemma preserves_throw {A} (e : Exn) : preserves I (@throw W A e).
Proof. intros w H. exact H. Qed.

Lemma preserves_gets {A} (f : W -> A) : preserves I (gets f).
Proof. intros w H. exact H. Qed.

Lemma preserves_modify (f : W -> W) :
  (forall w, I w -> I (f w)) -> preserves I (modify f).
Proof. intros Hf w H. apply Hf, H. Qed.

Lemma preserves_bind {A B} (m : M W A) (k : A -> M W B) :
  preserves I m -> (forall a, preserves I (k a)) -> preserves I (bind m k).
Proof.
  intros Hm Hk w H. unfold bind.
  specialize (Hm w H). destruct (m w) as [[a|e|] w']; simpl in *; auto.
  now apply Hk.
Qed.

Lemma preserves_try_catch {A} (body : M W A) (handler : Exn -> M W A) :
  preserves I body -> (forall e, preserves I (handler e)) ->
  preserves I (try_catch body handler).
Proof.
  intros Hb Hh w H. unfold try_catch.
  specialize (Hb w H). destruct (body w) as [[a|e|] w']; simpl in *; auto.
  now apply Hh.
Qed.

Lemma preserves_try_finally {A} (body : M W A) (cleanup : M W unit) :
  preserves I body -> preserves I cleanup ->
  preserves I (try_finally body cleanup).
Proof.
  intros Hb Hc w H. unfold try_finally.
  specialize (Hb w H). destruct (body w) as [[a|e|] w']; simpl in *; auto;
    specialize (Hc w' Hb); destruct (cleanup w') as [[[]|e'|] w'']; auto.
Qed.

End Preservation.

Section MockStoreInvariants.

Import Mock.

Variable fault : Action -> DispatchFault.
Variable lowerNonAscii : jsstring -> N -> jsstring -> jsstring.

(** A property of the store that every action keeps. *)
Variable P : ChatState -> Prop.
Hypothesis reducer_keeps : forall state action, P state -> P (reducer state action).

Lemma dispatch_keeps (action : Action) : preserves (storeSatisfies P) (dispatch fault action).
Proof.
  intros w H. unfold dispatch.
  destruct (fault action); simpl; auto; now apply reducer_keeps.
Qed.

Lemma handleSendMessage_keeps (clock : Clock) :
  preserves (storeSatisfies P) (handleSendMessage fault clock).
Proof.
  unfold handleSendMessage.
  apply preserves_bind; [apply preserves_gets | intros text].
  apply preserves_bind; [apply preserves_gets | intros busy].
  destruct (negb (truthy (trim text)) || busy); [apply preserves_ret|].
  repeat (apply preserves_bind; [| intros _]);
    try apply dispatch_keeps; apply preserves_modify; auto.
Qed.

Lemma runCallback_keeps (cb : Callback) (clock : Clock) :
  preserves (storeSatisfies P) (runCallback fault lowerNonAscii cb clock).
Proof.
  destruct cb; simpl; (apply preserves_bind; [| intros _]); apply dispatch_keeps.
Qed.

Lemma handle_keeps (e : Event) : preserves (storeSatisfies P) (handle fault lowerNonAscii e).
Proof.
  destruct e as [value|clock| |i clock]; simpl.
  - apply preserves_modify; auto.
  - apply handleSendMessage_keeps.
  - unfold handleIndexDocuments.
    apply preserves_bind; [apply dispatch_keeps | intros _].
    apply preserves_modify; auto.
  - intros w H. unfold fireTimer.
    destruct (nth_error (timers w) i) as [t|]; [| exact H].
    apply runCallback_keeps. exact H.
Qed.

Lemma run_keeps (events : list Event) (w : App) :
  P (store w) -> P (store (run fault lowerNonAscii events w)).
Proof.
  revert w; induction events as [|e events IH]; intros w H; simpl; [exact H|].
  apply IH. now apply handle_keeps.
Qed.

End MockStoreInvariants.

(** ** The documents of the store *)

Section MockDocuments.

Import Mock.

Lemma allIndexed_markIndexed (docs : list Document) :
  allIndexed (map markIndexed docs) = true.
Proof.
  induction docs as [|d docs IH]; simpl; [reflexivity | exact IH].
Qed.

Lemma allIndexed_reducer (state : ChatState) (action : Action) :
  allIndexed (documents state) = true ->
  allIndexed (documents (reducer state action)) = true.
Proof.
  destruct action; simpl; auto. intros _. apply allIndexed_markIndexed.
Qed.

Lemma allIndexed_fold (actions : list Action) (state : ChatState) :
  allIndexed (documents state) = true ->
  allIndexed (documents (fold_left reducer actions state)) = true.
Proof.
  revert state; induction actions as [|a actions IH]; intros state H; simpl.
  - exact H.
  - apply IH, allIndexed_reducer, H.
Qed.

Lemma allIndexed_count (docs : list Document) :
  allIndexed docs = true -> indexedCount docs = List.length docs.
Proof.
  unfold indexedCount.
  induction docs as [|d docs IH]; simpl; [reflexivity|].
  intros H. apply andb_prop in H as [Hd Hdocs].
  rewrite Hd. simpl. now rewrite IH.
Qed.

Lemma allIndexed_no_pending (docs : list Document) :
  allIndexed docs = true ->
  existsb (fun d => Status_eqb (status d) pending) docs = false.
Proof.
  induction docs as [|d docs IH]; simpl; [reflexivity|].
  intros H. apply andb_prop in H as [Hd Hdocs].
  rewrite (IH Hdocs). destruct (status d); [reflexivity | discriminate].
Qed.

Lemma advanced_refl (docs : list Document) : Forall2 advanced docs docs.
Proof.
  induction docs as [|d docs IH]; constructor; [|exact IH].
  repeat split. now destruct (status d).
Qed.

Lemma advanced_markIndexed (docs : list Document) :
  Forall2 advanced docs (map markIndexed docs).
Proof.
  induction docs as [|d docs IH]; simpl; constructor; [|exact IH].
  repeat split. now destruct (status d).
Qed.

End MockDocuments.

(** C10. In the mock variant every reachable store state has all its
    documents indexed: the seed [MOCK_DOCUMENTS] is all indexed and each
    action keeps that, [simulateIndexing], the only one that changes the
    documents, included.  So after any sequence of dispatched actions,
    and on the page after any sequence of events whatever the store does
    on a dispatch, the derived [indexedCount] equals the number of
    documents and no pending document is ever there to be shown. *)
Theorem mock_documents_always_indexed
  (actions : list Mock.Action) (fault : Mock.Action -> DispatchFault)
  (lowerNonAscii : jsstring -> N -> jsstring -> jsstring)
  (events : list Mock.Event) :
  fullyIndexed Mock.MOCK_DOCUMENTS
  /\ fullyIndexed (Mock.documents (Mock.dispatched actions))
  /\ fullyIndexed
       (Mock.documents
          (Mock.store (Mock.run fault lowerNonAscii events Mock.initialApp))).
Proof.
  assert (Hfull : forall docs, allIndexed docs = true -> fullyIndexed docs).
  { intros docs H. split; [exact H | split].
    - apply allIndexed_count, H.
    - apply allIndexed_no_pending, H. }
  split; [| split]; apply Hfull.
  - reflexivity.
  - apply allIndexed_fold. reflexivity.
  - apply (run_keeps fault lowerNonAscii
             (fun state => allIndexed (Mock.documents state) = true)).
    + intros state action. apply allIndexed_reducer.
    + reflexivity.
Qed.

(** C7, as stated, fails in the variant wired to the backend: a refresh
    whose document list reports as pending a document that the store
    holds as indexed puts it back to pending. *)
Lemma refresh_reverts_status :
  let report (s : Status) :=
    [ {| Remote.doc_id := js "1"; Remote.name := js "notes.txt"; Remote.status := s |} ] in
  let refreshed (s : Status) :=
    [ Remote.refresh;
      Remote.settles 0 (Remote.statusReply (Fulfilled {| Remote.indexed_count := 1 |})) noon;
      Remote.settles 0 (Remote.documentsReply (Fulfilled (report s))) noon ] in
  let first := Remote.run noFault (refreshed indexed) Remote.initialApp in
  let second := Remote.run noFault (refreshed pending) first in
  map Remote.doc_id (Remote.documents (Remote.store first)) = [js "1"]
  /\ map Remote.status (Remote.documents (Remote.store first)) = [indexed]
  /\ map Remote.doc_id (Remote.documents (Remote.store second)) = [js "1"]
  /\ map Remote.status (Remote.documents (Remote.store second)) = [pending]
  /\ Remote.log second
     = [ Remote.setIndexedCount 1; Remote.setDocuments (report indexed);
         Remote.setIndexedCount 1; Remote.setDocuments (report pending) ].
Proof.
  cbv zeta. repeat split.
Qed.

(** C7, amended.  In the mock variant every store operation, from any
    state, keeps each document in its place with its id and name, and
    its status either stays or moves from pending to indexed.  In the
    variant wired to the backend every store operation but
    [setDocuments] leaves the documents as they are, and [setDocuments],
    which a refresh dispatches, puts the reported list in their place as
    it is. *)
Theorem document_status_transitions :
  (forall (state : Mock.ChatState) (action : Mock.Action),
     Forall2 advanced (Mock.documents state)
       (Mock.documents (Mock.reducer state action)))
  /\ (forall (state : Remote.ChatState) (action : Remote.Action),
        Remote.documents (Remote.reducer state action)
        = match action with
          | Remote.setDocuments payload => payload
          | _ => Remote.documents state
          end).
Proof.
  split.
  - intros state action. destruct action; simpl;
      try apply advanced_refl. apply advanced_markIndexed.
  - intros state action. destruct action; reflexivity.
Qed.

(** ** Submitting a query *)

Lemma truthy_trim (text : jsstring) :
  truthy (trim text) = false <-> trim text = [].
Proof.
  destruct (trim text); simpl; split; congruence.
Qed.

Lemma mock_guard (fault : Mock.Action -> DispatchFault) (clock : Clock) (w : Mock.App) :
  trim (Mock.input w) = [] \/ Mock.isProcessing (Mock.store w) = true ->
  Mock.handleSendMessage fault clock w = (Ok tt, w).
Proof.
  intros H. unfold Mock.handleSendMessage, bind, gets. simpl.
  destruct H as [H|H]; rewrite H; simpl; [reflexivity|].
  now rewrite orb_true_r.
Qed.

Lemma remote_guard (fault : Remote.Action -> DispatchFault) (clock : Clock) (w : Remote.App) :
  trim (Remote.input w) = [] \/ Remote.isProcessing (Remote.store w) = true ->
  Remote.handleSendMessage fault Remote.sendClick clock w = (Ok tt, w).
Proof.
  intros H. unfold Remote.handleSendMessage, bind, gets. simpl.
  destruct H as [H|H]; rewrite H; simpl; [reflexivity|].
  now rewrite orb_true_r.
Qed.

(** C4. A call of [handleSendMessage] whose input is empty once trimmed,
    or that is made while [isProcessing] holds, does nothing, in either
    variant and whatever the store would do on a dispatch: it returns
    normally and the page is as it was, so no action has reached the
    store, no timer or request has been started, and the messages,
    [isProcessing] and every other field are unchanged. *)
Theorem handleSendMessage_noop
  (faultM : Mock.Action -> DispatchFault) (faultR : Remote.Action -> DispatchFault)
  (clock : Clock) (wm : Mock.App) (wr : Remote.App) :
  (trim (Mock.input wm) = [] \/ Mock.isProcessing (Mock.store wm) = true ->
   Mock.handleSendMessage faultM clock wm = (Ok tt, wm))
  /\ (trim (Remote.input wr) = [] \/ Remote.isProcessing (Remote.store wr) = true ->
      Remote.handleSendMessage faultR Remote.sendClick clock wr = (Ok tt, wr)).
Proof.
  split; [apply mock_guard | apply remote_guard].
Qed.

Lemma handleSendMessage_noop_witness :
  Mock.handleSendMessage noFault noon
    (Mock.run noFault keepNonAscii [Mock.change (js "   ")] Mock.initialApp)
  = (Ok tt, Mock.run noFault keepNonAscii [Mock.change (js "   ")] Mock.initialApp)
  /\ Remote.handleSendMessage noFault Remote.sendClick later busyRemote
     = (Ok tt, busyRemote).
Proof.
  split;
    apply (handleSendMessage_noop noFault noFault _
             (Mock.run noFault keepNonAscii [Mock.change (js "   ")] Mock.initialApp)
             busyRemote);
    [left | right]; reflexivity.
Defined.

Lemma mock_reply (lowerNonAscii : jsstring -> N -> jsstring -> jsstring)
  (userMessage : Mock.Message) (clock : Clock) (w : Mock.App) :
  exists aiMessage w',
    Mock.runCallback noFault lowerNonAscii (Mock.replyTo userMessage) clock w = (Ok tt, w')
    /\ Mock.role aiMessage = assistant
    /\ Mock.messages (Mock.store w') = Mock.messages (Mock.store w) ++ [aiMessage]
    /\ Mock.isProcessing (Mock.store w') = false
    /\ Mock.log w' = Mock.log w ++ [Mock.addMessage aiMessage; Mock.setIsProcessing false]
    /\ Mock.timers w' = Mock.timers w.
Proof.
  do 2 eexists. split; [reflexivity|].
  simpl. rewrite <- app_assoc. repeat split; reflexivity.
Qed.

Lemma mock_submit (lowerNonAscii : jsstring -> N -> jsstring -> jsstring)
  (clock : Clock) (w : Mock.App) :
  truthy (trim (Mock.input w)) = true ->
  Mock.isProcessing (Mock.store w) = false ->
  mockSubmission lowerNonAscii clock w.
Proof.
  intros Hin Hbusy. unfold mockSubmission.
  exists {| Mock.id := toString (dateNow clock); Mock.role := user;
            Mock.content := trim (Mock.input w); Mock.sources := None;
            Mock.timestamp := newDate clock |}.
  eexists. split.
  { unfold Mock.handleSendMessage, bind, gets. simpl.
    rewrite Hbusy, Hin. reflexivity. }
  repeat match goal with |- _ /\ _ => split end;
    try (intros; apply mock_reply);
    simpl; rewrite <- ?app_assoc; reflexivity.
Qed.

Lemma remote_reply (userMessage : Remote.Message) (o : Outcome Value)
  (clock : Clock) (w : Remote.App) :
  exists aiMessage w',
    Remote.handleSendMessage noFault (Remote.afterChat userMessage o) clock w = (Ok tt, w')
    /\ Remote.role aiMessage = assistant
    /\ Remote.messages (Remote.store w') = Remote.messages (Remote.store w) ++ [aiMessage]
    /\ Remote.isProcessing (Remote.store w') = false
    /\ Remote.log w' = Remote.log w ++ [Remote.addMessage aiMessage; Remote.setIsProcessing false]
    /\ Remote.pending w' = Remote.pending w.
Proof.
  destruct o as [[|[]]|]; do 2 eexists; (split; [reflexivity|]);
    simpl; rewrite <- app_assoc; repeat split; reflexivity.
Qed.

Lemma remote_submit (clock : Clock) (w : Remote.App) :
  truthy (trim (Remote.input w)) = true ->
  Remote.isProcessing (Remote.store w) = false ->
  remoteSubmission clock w.
Proof.
  intros Hin Hbusy. unfold remoteSubmission.
  exists {| Remote.id := toString (dateNow clock); Remote.role := user;
            Remote.content := text (trim (Remote.input w));
            Remote.sources := undefined;
            Remote.timestamp := newDate clock |}.
  eexists. split.
  { unfold Remote.handleSendMessage at 1, bind, gets. simpl.
    rewrite Hbusy, Hin. reflexivity. }
  repeat match goal with |- _ /\ _ => split end;
    try (intros; apply remote_reply);
    simpl; rewrite <- ?app_assoc; reflexivity.
Qed.

(** C1. For every input that is non-empty once trimmed, submitted while
    no submission is in progress, [handleSendMessage] appends exactly
    one message of role user at once, and exactly one message of role
    assistant once the resolution settles: when the timeout fires in the
    mock variant, and when the chat request is fulfilled or rejected in
    the variant wired to the backend.  The actions that reach the store
    are one [addMessage] in each of the two phases, never none and never
    two. *)
Theorem submit_appends_one_user_one_assistant
  (lowerNonAscii : jsstring -> N -> jsstring -> jsstring) (clock : Clock)
  (wm : Mock.App) (wr : Remote.App) :
  truthy (trim (Mock.input wm)) = true ->
  Mock.isProcessing (Mock.store wm) = false ->
  truthy (trim (Remote.input wr)) = true ->
  Remote.isProcessing (Remote.store wr) = false ->
  mockSubmission lowerNonAscii clock wm /\ remoteSubmission clock wr.
Proof.
  intros Hm Hm' Hr Hr'. split; [now apply mock_submit | now apply remote_submit].
Qed.

Lemma submit_appends_one_user_one_assistant_witness :
  mockSubmission keepNonAscii noon
    (Mock.run noFault keepNonAscii [Mock.change (js " What was the Q3 revenue? ")]
       Mock.initialApp)
  /\ remoteSubmission noon
       (Remote.run noFault [Remote.change (js " What was the Q3 revenue? ")]
          Remote.initialApp).
Proof.
  apply (submit_appends_one_user_one_assistant keepNonAscii noon
           (Mock.run noFault keepNonAscii
              [Mock.change (js " What was the Q3 revenue? ")] Mock.initialApp)
           (Remote.run noFault
              [Remote.change (js " What was the Q3 revenue? ")] Remote.initialApp));
    reflexivity.
Defined.

(** C5, as stated, fails on a reply that cannot be decoded: the request
    is fulfilled, its body reaches the page as the string it is, and
    reading [response_text] and [sources] from a string gives
    [undefined] without raising.  The [catch] is not entered, nothing is
    printed, and the assistant message that is appended has [undefined]
    for content, not the connectivity-error string. *)
Lemma undecodable_reply_is_not_an_error :
  let w := Remote.run noFault
             [Remote.settles 0
                (Remote.chatReply
                   (Fulfilled (defined (jstring (js "<html>Bad Gateway</html>")))))
                later]
             busyRemote in
  map Remote.role (Remote.messages (Remote.store w)) = [user; assistant]
  /\ map Remote.content (Remote.messages (Remote.store w))
     = [text (js "hello"); undefined]
  /\ map Remote.sources (Remote.messages (Remote.store w)) = [undefined; undefined]
  /\ Remote.console w = []
  /\ Remote.isProcessing (Remote.store w) = false.
Proof.
  cbv zeta. repeat split.
Qed.

(** C5, amended.  In the variant wired to the backend, however the chat
    request settles, the handler returns normally, having appended one
    assistant message, and [isProcessing] is false afterwards.  When the
    request is rejected, or is fulfilled with [null] or [undefined] so
    that reading the reply raises, the failure is printed on the console
    and the message has the fixed connectivity-error string for content
    and no sources.  Any other reply is not a failure for the page,
    decoded or not: nothing is printed, and the message has for content
    and sources what [response_text] and [sources] read from the body,
    which is [undefined] when the body is not an object or lacks the
    member. *)
Theorem chat_reply_outcomes
  (userMessage : Remote.Message) (o : Outcome Value) (clock : Clock)
  (w : Remote.App) :
  exists aiMessage w',
    Remote.handleSendMessage noFault (Remote.afterChat userMessage o) clock w
    = (Ok tt, w')
    /\ Remote.messages (Remote.store w')
       = Remote.messages (Remote.store w) ++ [aiMessage]
    /\ Remote.role aiMessage = assistant
    /\ Remote.isProcessing (Remote.store w') = false
    /\ match o with
       | Rejected | Fulfilled undefined | Fulfilled (defined jnull) =>
           Remote.content aiMessage
           = text (js "Sorry, I'm having trouble connecting to the server. Please try again later.")
           /\ Remote.sources aiMessage = undefined
           /\ Remote.console w' = Remote.console w ++ [js "Failed to send message"]
       | Fulfilled body =>
           Remote.content aiMessage = readMember body (js "response_text")
           /\ Remote.sources aiMessage = readMember body (js "sources")
           /\ Remote.console w' = Remote.console w
       end.
Proof.
  destruct o as [[|[]]|]; do 2 eexists; (split; [reflexivity|]);
    simpl; repeat split; reflexivity.
Qed.

(** ** The cleanup of the busy flags *)

Section Stuck.

Import Mock.

Variable fault : Action -> DispatchFault.
Variable lowerNonAscii : jsstring -> N -> jsstring -> jsstring.






End Stuck.








(** With [everyAppendRaises] both appends of the run above raise, and
    the handler ends by raising, its flag dropped all the same. *)
Example raising_appends_run :
  let run := Remote.handleSendMessage everyAppendRaises
               (Remote.afterChat helloMessage (Fulfilled helloResponse))
               later busyRemote in
  fst run = Throw DispatchError
  /\ Remote.isProcessing (Remote.store (snd run)) = false.
Proof.
  cbv zeta. repeat split; vm_compute; reflexivity.
Qed.

(** ** Uploading and refreshing *)

(** C6, as stated, fails in two ways.  A refresh on its own does not
    touch [isIndexing]: when its status read is rejected while an upload
    is in flight, it ends with [isIndexing] still true.  And a refresh
    is not one step: when its status read is fulfilled and its document
    read is rejected, the store is left with the reported count beside
    the documents it had, here a count of three and no document. *)
Lemma refresh_failure_leaves_isIndexing_and_count :
  let file := {| Remote.file_name := js "notes.txt"; Remote.file_bytes := [] |} in
  let during :=
    Remote.run noFault
      [ Remote.chooseFile (Some file); Remote.refresh;
        Remote.settles 1 (Remote.statusReply Rejected) noon ]
      Remote.initialApp in
  let halfway :=
    Remote.run noFault
      [ Remote.refresh;
        Remote.settles 0
          (Remote.statusReply (Fulfilled {| Remote.indexed_count := 3 |})) noon;
        Remote.settles 0 (Remote.documentsReply Rejected) noon ]
      Remote.initialApp in
  Remote.isIndexing (Remote.store during) = true
  /\ Remote.pending during = [Remote.awaitUpload file]
  /\ Remote.console during = [js "Failed to fetch status or documents"]
  /\ Remote.indexedCount (Remote.store halfway) = 3%Z
  /\ Remote.documents (Remote.store halfway) = []
  /\ Remote.pending halfway = []
  /\ Remote.console halfway = [js "Failed to fetch status or documents"].
Proof.
  cbv zeta. repeat split.
Qed.

(** C6, amended.  In the variant wired to the backend a failure of the
    upload or of either read of a refresh is caught and swallowed: the
    handler prints the error on the console and returns normally, no
    message is appended, no request is left in flight, and the documents
    of the store are what they were.  When the upload is rejected, or
    the status read or the document read of the refresh that follows it,
    [handleFileUpload] ends with [isIndexing] false; a refresh run on
    its own ([fetchStatusAndDocuments] from the mount effect or its
    interval) leaves [isIndexing] as it was.  The steps of the run
    before the failure keep the documents too, and only them: the start
    of the upload changes [isIndexing] alone, a fulfilled upload changes
    nothing in the store, and a fulfilled status read has replaced
    [indexedCount] by the time the document read fails. *)
Theorem upload_and_refresh_failures_swallowed (w : Remote.App) :
  swallowed (Remote.handleFileUpload noFault (Remote.afterUpload Rejected) w)
    w (js "Failed to upload document") true
  /\ swallowed (Remote.handleFileUpload noFault
                  (Remote.inRefresh (Remote.afterStatus Rejected)) w)
       w (js "Failed to fetch status or documents") true
  /\ swallowed (Remote.handleFileUpload noFault
                  (Remote.inRefresh (Remote.afterDocuments Rejected)) w)
       w (js "Failed to fetch status or documents") true
  /\ swallowed (Remote.fetchStatusAndDocuments noFault Remote.fromEffect
                  (Remote.afterStatus Rejected) w)
       w (js "Failed to fetch status or documents") false
  /\ swallowed (Remote.fetchStatusAndDocuments noFault Remote.fromEffect
                  (Remote.afterDocuments Rejected) w)
       w (js "Failed to fetch status or documents") false
  /\ (forall file : Remote.File,
        let run := Remote.handleFileUpload noFault (Remote.uploadChange (Some file)) w in
        fst run = Suspended
        /\ Remote.store (snd run) = Remote.reducer (Remote.store w) (Remote.setIsIndexing true)
        /\ Remote.documents (Remote.store (snd run)) = Remote.documents (Remote.store w))
  /\ (let run := Remote.handleFileUpload noFault (Remote.afterUpload (Fulfilled tt)) w in
      fst run = Suspended /\ Remote.store (snd run) = Remote.store w)
  /\ (forall (caller : Remote.Caller) (statusData : Remote.StatusData),
        let run := Remote.fetchStatusAndDocuments noFault caller
                     (Remote.afterStatus (Fulfilled statusData)) w in
        fst run = Suspended
        /\ Remote.store (snd run)
           = Remote.reducer (Remote.store w)
               (Remote.setIndexedCount (Remote.indexed_count statusData))
        /\ Remote.documents (Remote.store (snd run)) = Remote.documents (Remote.store w)).
Proof.
  unfold swallowed. cbv zeta.
  repeat match goal with
         | |- _ /\ _ => split
         | |- forall _, _ => intro
         end;
    simpl; rewrite ?app_nil_r; reflexivity.
Qed.

(** ** Indexing in the mock variant *)

(** C8. In the mock variant every call of [handleIndexDocuments] raises
    [isIndexing] and sets one timeout of 2000 ms, touching nothing else;
    and that timeout, at whatever state [w2] the page has when it fires,
    maps every document's status to indexed, keeping its id and its
    name, and then drops [isIndexing], leaving the messages and
    [isProcessing] as they are.  The actions
    reach the store in this order: [setIsIndexing(true)], then after the
    delay [simulateIndexing], [setIsIndexing(false)]. *)
Theorem handleIndexDocuments_steps
  (lowerNonAscii : jsstring -> N -> jsstring -> jsstring) (w : Mock.App) :
  (let run := Mock.handleIndexDocuments noFault w in
   fst run = Ok tt
   /\ Mock.log (snd run) = Mock.log w ++ [Mock.setIsIndexing true]
   /\ Mock.timers (snd run)
      = Mock.timers w ++ [{| Mock.callback := Mock.finishIndexing; Mock.delay := 2000 |}]
   /\ Mock.isIndexing (Mock.store (snd run)) = true
   /\ Mock.documents (Mock.store (snd run)) = Mock.documents (Mock.store w)
   /\ Mock.messages (Mock.store (snd run)) = Mock.messages (Mock.store w)
   /\ Mock.isProcessing (Mock.store (snd run)) = Mock.isProcessing (Mock.store w)
   /\ Mock.input (snd run) = Mock.input w)
  /\ (forall (clock : Clock) (w2 : Mock.App),
        let run := Mock.runCallback noFault lowerNonAscii Mock.finishIndexing clock w2 in
        fst run = Ok tt
        /\ Mock.log (snd run)
           = Mock.log w2 ++ [Mock.simulateIndexing; Mock.setIsIndexing false]
        /\ Mock.timers (snd run) = Mock.timers w2
        /\ Mock.documents (Mock.store (snd run))
           = map (fun doc => {| Mock.doc_id := Mock.doc_id doc;
                                Mock.name := Mock.name doc;
                                Mock.status := indexed |})
               (Mock.documents (Mock.store w2))
        /\ map Mock.doc_id (Mock.documents (Mock.store (snd run)))
           = map Mock.doc_id (Mock.documents (Mock.store w2))
        /\ map Mock.name (Mock.documents (Mock.store (snd run)))
           = map Mock.name (Mock.documents (Mock.store w2))
        /\ allIndexed (Mock.documents (Mock.store (snd run))) = true
        /\ Mock.isIndexing (Mock.store (snd run)) = false
        /\ Mock.messages (Mock.store (snd run)) = Mock.messages (Mock.store w2)
        /\ Mock.isProcessing (Mock.store (snd run)) = Mock.isProcessing (Mock.store w2)
        /\ Mock.input (snd run) = Mock.input w2).
Proof.
  cbv zeta. split.
  - repeat split.
  - intros clock w2.
    repeat match goal with |- _ /\ _ => split end;
      simpl; rewrite <- ?app_assoc; try reflexivity.
    + rewrite map_map. reflexivity.
    + rewrite map_map. reflexivity.
    + apply allIndexed_markIndexed.
Qed.

(** * Further properties of the page *)

(** ** The resolver *)

Lemma lowerFrom_ascii (lowerNonAscii : jsstring -> N -> jsstring -> jsstring)
  (before query : jsstring) :
  forallb (fun c => (c <? 128)%N) query = true ->
  lowerFrom lowerNonAscii before query = map asciiLower query.
Proof.
  revert before; induction query as [|c query IH]; intros before H; simpl.
  - reflexivity.
  - simpl in H. apply andb_prop in H as [Hc Hq].
    rewrite Hc. simpl. now rewrite IH.
Qed.

(** On queries made of ASCII the resolver does not see the case of the
    letters: two such queries that differ only in the case of ASCII
    letters get the same answer. *)
Theorem generateMockResponse_ignores_case
  (lowerNonAscii : jsstring -> N -> jsstring -> jsstring) (query query' : jsstring) :
  forallb (fun c => (c <? 128)%N) query = true ->
  forallb (fun c => (c <? 128)%N) query' = true ->
  map asciiLower query = map asciiLower query' ->
  Mock.generateMockResponse lowerNonAscii query
  = Mock.generateMockResponse lowerNonAscii query'.
Proof.
  intros H H' Heq.
  rewrite !generateMockResponse_cases. cbv zeta. unfold toLowerCase.
  now rewrite (lowerFrom_ascii _ _ _ H), (lowerFrom_ascii _ _ _ H'), Heq.
Qed.

Lemma generateMockResponse_ignores_case_witness :
  Mock.generateMockResponse keepNonAscii (js "Any NEWS on Customer SUPPORT?")
  = Mock.generateMockResponse keepNonAscii (js "any news on customer support?").
Proof.
  apply generateMockResponse_ignores_case; reflexivity.
Defined.

(** Whatever the query, every source the resolver cites is titled after
    one of the seeded documents, and the list of sources is empty
    exactly when no keyword group matches the lower-cased query; it has
    two entries otherwise. *)
Theorem generateMockResponse_cites_seeded_documents
  (lowerNonAscii : jsstring -> N -> jsstring -> jsstring) (query : jsstring) :
  let lowerQuery := toLowerCase lowerNonAscii query in
  let cited := Mock.resolved_sources (Mock.generateMockResponse lowerNonAscii query) in
  Forall (fun s => In (Mock.title s) (map Mock.name Mock.MOCK_DOCUMENTS)) cited
  /\ List.length cited
     = (if Mock.matchesGroup lowerQuery Mock.financialKeywords
           || Mock.matchesGroup lowerQuery Mock.supportKeywords
           || Mock.matchesGroup lowerQuery Mock.productKeywords
        then 2 else 0).
Proof.
  cbv zeta. rewrite generateMockResponse_cases. cbv zeta.
  destruct (Mock.matchesGroup _ Mock.financialKeywords);
    [| destruct (Mock.matchesGroup _ Mock.supportKeywords);
       [| destruct (Mock.matchesGroup _ Mock.productKeywords)]];
    (split; [| reflexivity]); repeat constructor; simpl; tauto.
Qed.

(** ** Trimmed input *)

Lemma noLead_trimStart (s : jsstring) : noLead (trimStart s) = true.
Proof.
  induction s as [|c s IH]; simpl; [reflexivity|].
  destruct (isWhiteSpace c) eqn:E; [exact IH | simpl; now rewrite E].
Qed.

Lemma trimStart_noLead (s : jsstring) : noLead s = true -> trimStart s = s.
Proof.
  destruct s as [|c s]; simpl; [reflexivity|].
  now destruct (isWhiteSpace c).
Qed.

Lemma trimStart_suffix (s : jsstring) : exists ws, s = ws ++ trimStart s.
Proof.
  induction s as [|c s [ws IH]]; simpl.
  - now exists [].
  - destruct (isWhiteSpace c); [| now exists []].
    exists (c :: ws). simpl. now rewrite <- IH.
Qed.

Lemma noLead_app (s rest : jsstring) : s <> [] -> noLead (s ++ rest) = noLead s.
Proof. destruct s; [congruence | reflexivity]. Qed.

Lemma noLead_trim (s : jsstring) : noLead (trim s) = true.
Proof.
  unfold trim, trimEnd.
  pose proof (noLead_trimStart s) as Ht.
  destruct (trimStart_suffix (rev (trimStart s))) as [ws Hws].
  destruct (trimStart (rev (trimStart s))) as [|c r] eqn:E; [reflexivity|].
  apply (f_equal (@rev N)) in Hws. rewrite rev_involutive, rev_app_distr in Hws.
  rewrite Hws, noLead_app in Ht; [exact Ht|].
  simpl. now destruct (rev r).
Qed.

Lemma noLead_rev_trim (s : jsstring) : noLead (rev (trim s)) = true.
Proof.
  unfold trim, trimEnd. rewrite rev_involutive. apply noLead_trimStart.
Qed.

Lemma trim_idempotent (s : jsstring) : trim (trim s) = trim s.
Proof.
  unfold trim at 1, trimEnd.
  rewrite (trimStart_noLead _ (noLead_trim s)).
  rewrite (trimStart_noLead _ (noLead_rev_trim s)).
  apply rev_involutive.
Qed.

Lemma trimmed_trim (s : jsstring) : truthy (trim s) = true -> trimmed (trim s).
Proof. intros H. split; [exact H | apply trim_idempotent]. Qed.

Section MockPage.

Import Mock.

Variable fault : Action -> DispatchFault.
Variable lowerNonAscii : jsstring -> N -> jsstring -> jsstring.

Lemma mock_dispatch_store (I : ChatState -> Prop) (action : Action) :
  (forall state, I state -> I (reducer state action)) ->
  preserves (fun w => I (store w)) (dispatch fault action).
Proof.
  intros Hred w H. unfold dispatch. destruct (fault action); simpl; auto.
Qed.

Lemma mock_setInput_store (I : ChatState -> Prop) (value : jsstring) :
  preserves (fun w => I (store w)) (setInput value).
Proof. intros w H. exact H. Qed.

Lemma mock_setTimeout_store (I : ChatState -> Prop) (cb : Callback) (ms : N) :
  preserves (fun w => I (store w)) (setTimeout cb ms).
Proof. intros w H. exact H. Qed.

Lemma mock_run_preserves (I : App -> Prop) :
  (forall e, preserves I (handle fault lowerNonAscii e)) ->
  forall events w, I w -> I (run fault lowerNonAscii events w).
Proof.
  intros Hh events; induction events as [|e events IH]; intros w H; simpl.
  - exact H.
  - apply IH. now apply Hh.
Qed.

Lemma mockUsers_addMessage (good : jsstring -> Prop) (m : Message) :
  (role m = user -> good (content m)) ->
  forall state, mockUsers good state -> mockUsers good (reducer state (addMessage m)).
Proof.
  intros Hm state H. unfold mockUsers in *. simpl.
  apply Forall_app. split; [exact H | now constructor].
Qed.

Lemma mockUsers_other (good : jsstring -> Prop) (action : Action) :
  (forall m, action <> addMessage m) ->
  forall state, mockUsers good state -> mockUsers good (reducer state action).
Proof.
  intros Hne state H. destruct action; simpl; auto. now destruct (Hne payload).
Qed.

Lemma mock_handle_trimmed (e : Event) :
  preserves (fun w => mockUsers trimmed (store w)) (handle fault lowerNonAscii e).
Proof.
  destruct e as [value|clock| |i clock]; simpl.
  - apply mock_setInput_store.
  - unfold handleSendMessage.
    apply preserves_bind; [apply preserves_gets | intros text].
    apply preserves_bind; [apply preserves_gets | intros busy].
    destruct (truthy (trim text)) eqn:E; simpl; [| apply preserves_ret].
    destruct busy; [apply preserves_ret|].
    apply preserves_bind; [| intros _].
    { apply mock_dispatch_store, mockUsers_addMessage. intros _.
      now apply trimmed_trim. }
    apply preserves_bind; [apply mock_setInput_store | intros _].
    apply preserves_bind; [| intros _; apply mock_setTimeout_store].
    apply mock_dispatch_store, mockUsers_other. discriminate.
  - unfold handleIndexDocuments.
    apply preserves_bind; [| intros _; apply mock_setTimeout_store].
    apply mock_dispatch_store, mockUsers_other. discriminate.
  - intros w H. unfold fireTimer.
    destruct (nth_error (timers w) i) as [t|]; [| exact H].
    revert H. change (mockUsers trimmed (store w))
      with (mockUsers trimmed (store (clearTimer i w))).
    generalize (clearTimer i w). clear w.
    change (preserves (fun w => mockUsers trimmed (store w))
              (runCallback fault lowerNonAscii (callback t) clock)).
    destruct (callback t); simpl; (apply preserves_bind; [| intros _]);
      apply mock_dispatch_store;
      try (apply mockUsers_other; discriminate).
    apply mockUsers_addMessage. discriminate.
Qed.

End MockPage.

Section RemotePage.

Import Remote.

Variable fault : Action -> DispatchFault.

(** A property of the store, and the actions that keep it. *)
Variable I : ChatState -> Prop.

Lemma remote_dispatch_store (action : Action) :
  remoteKeeps I action -> preserves (fun w => I (store w)) (dispatch fault action).
Proof.
  intros Hred w H. unfold dispatch. destruct (fault action); simpl; auto.
Qed.

Lemma remote_await_store {A} (request : Pending) :
  preserves (fun w => I (store w)) (@await A request).
Proof. intros w H. exact H. Qed.

Lemma remote_console_store (message : jsstring) :
  preserves (fun w => I (store w)) (console_error message).
Proof. intros w H. exact H. Qed.

Lemma remote_settled_store {A} (o : Outcome A) :
  preserves (fun w => I (store w)) (settled o).
Proof. intros w H. destruct o; exact H. Qed.

Lemma remote_getProperty_store (object : Value) (key : jsstring) :
  preserves (fun w => I (store w)) (getProperty object key).
Proof. intros w H. destruct object as [|[]]; exact H. Qed.

Lemma remote_fetch_store (caller : Caller) (pt : FetchPoint) :
  (forall n, remoteKeeps I (setIndexedCount n)) ->
  (forall docs, remoteKeeps I (setDocuments docs)) ->
  preserves (fun w => I (store w)) (fetchStatusAndDocuments fault caller pt).
Proof.
  intros Hcount Hdocs. unfold fetchStatusAndDocuments.
  apply preserves_try_catch; [| intros _; apply remote_console_store].
  destruct pt as [|o|o].
  - apply remote_await_store.
  - apply preserves_bind; [apply remote_settled_store | intros statusData].
    apply preserves_bind; [| intros _; apply remote_await_store].
    apply remote_dispatch_store, Hcount.
  - apply preserves_bind; [apply remote_settled_store | intros documentsData].
    apply remote_dispatch_store, Hdocs.
Qed.

Lemma remote_upload_store (pt : UploadPoint) :
  (forall n, remoteKeeps I (setIndexedCount n)) ->
  (forall docs, remoteKeeps I (setDocuments docs)) ->
  (forall b, remoteKeeps I (setIsIndexing b)) ->
  preserves (fun w => I (store w)) (handleFileUpload fault pt).
Proof.
  intros Hcount Hdocs Hidx. unfold handleFileUpload.
  assert (Hguard : forall body, preserves (fun w => I (store w)) body ->
            preserves (fun w => I (store w))
              (try_finally
                 (try_catch body
                    (fun _ => console_error (js "Failed to upload document")))
                 (dispatch fault (setIsIndexing false)))).
  { intros body Hbody. apply preserves_try_finally.
    - apply preserves_try_catch; [exact Hbody | intros _; apply remote_console_store].
    - apply remote_dispatch_store, Hidx. }
  destruct pt as [[file|]|o|pt'].
  - apply preserves_bind; [apply remote_dispatch_store, Hidx | intros _].
    apply Hguard, remote_await_store.
  - apply preserves_ret.
  - apply Hguard. apply preserves_bind; [apply remote_settled_store | intros _].
    now apply remote_fetch_store.
  - apply Hguard. now apply remote_fetch_store.
Qed.

Lemma remote_send_store (pt : SendPoint) (clock : Clock) :
  (forall m, (role m = user -> exists s, content m = text s /\ trimmed s) ->
             remoteKeeps I (addMessage m)) ->
  (forall b, remoteKeeps I (setIsProcessing b)) ->
  preserves (fun w => I (store w)) (handleSendMessage fault pt clock).
Proof.
  intros Hadd Hbusy. unfold handleSendMessage.
  assert (Hguard : forall body, preserves (fun w => I (store w)) body ->
            preserves (fun w => I (store w))
              (try_finally
                 (try_catch body
                    (fun _ =>
                       console_error (js "Failed to send message") ;;
                       dispatch fault
                         (addMessage
                            {| id := toString (dateNow clock + 1); role := assistant;
                               content := text connectivityError; sources := undefined;
                               timestamp := newDate clock |})))
                 (dispatch fault (setIsProcessing false)))).
  { intros body Hbody. apply preserves_try_finally.
    - apply preserves_try_catch; [exact Hbody | intros _].
      apply preserves_bind; [apply remote_console_store | intros _].
      apply remote_dispatch_store, Hadd. discriminate.
    - apply remote_dispatch_store, Hbusy. }
  destruct pt as [|userMessage o].
  - apply preserves_bind; [apply preserves_gets | intros typed].
    apply preserves_bind; [apply preserves_gets | intros busy].
    destruct (truthy (trim typed)) eqn:E; simpl; [| apply preserves_ret].
    destruct busy; [apply preserves_ret|].
    apply preserves_bind; [| intros _].
    { apply remote_dispatch_store, Hadd. intros _.
      exists (trim typed). split; [reflexivity | now apply trimmed_trim]. }
    apply preserves_bind; [intros w H; exact H | intros _].
    apply preserves_bind; [apply remote_dispatch_store, Hbusy | intros _].
    apply Hguard, remote_await_store.
  - apply Hguard.
    apply preserves_bind; [apply remote_settled_store | intros response].
    apply preserves_bind; [apply remote_getProperty_store | intros response_text].
    apply preserves_bind; [apply remote_getProperty_store | intros response_sources].
    apply remote_dispatch_store, Hadd. discriminate.
Qed.

Lemma remote_handle_store (e : Event) :
  (forall m, (role m = user -> exists s, content m = text s /\ trimmed s) ->
             remoteKeeps I (addMessage m)) ->
  (forall b, remoteKeeps I (setIsProcessing b)) ->
  (forall n, remoteKeeps I (setIndexedCount n)) ->
  (forall docs, remoteKeeps I (setDocuments docs)) ->
  (forall b, remoteKeeps I (setIsIndexing b)) ->
  preserves (fun w => I (store w)) (handle fault e).
Proof.
  intros Hadd Hbusy Hcount Hdocs Hidx.
  destruct e as [value|clock|file| |i reply clock]; cbn [handle].
  - intros w H; exact H.
  - now apply remote_send_store.
  - now apply remote_upload_store.
  - now apply remote_fetch_store.
  - intros w H. unfold settle.
    destruct (nth_error (pending w) i) as [request|]; [| exact H].
    destruct request as [u|f|[]|[]], reply as [o|o|o|o];
      cbn [resume]; try exact H;
      first [ apply (remote_send_store _ clock)
            | apply remote_upload_store
            | apply remote_fetch_store ];
      auto.
Qed.

Lemma remote_run_store (events : list Event) (w : App) :
  (forall m, (role m = user -> exists s, content m = text s /\ trimmed s) ->
             remoteKeeps I (addMessage m)) ->
  (forall b, remoteKeeps I (setIsProcessing b)) ->
  (forall n, remoteKeeps I (setIndexedCount n)) ->
  (forall docs, remoteKeeps I (setDocuments docs)) ->
  (forall b, remoteKeeps I (setIsIndexing b)) ->
  I (store w) -> I (store (run fault events w)).
Proof.
  intros Hadd Hbusy Hcount Hdocs Hidx.
  revert w; induction events as [|e events IH]; intros w H; simpl; [exact H|].
  apply IH. now apply remote_handle_store.
Qed.

End RemotePage.

(** Whatever the user types and whatever the store does on a dispatch,
    every user message of the conversation has a content that is not
    empty and that [trim] leaves as it is, in both variants: the page
    never stores a blank or padded question. *)
Theorem user_messages_are_trimmed
  (faultM : Mock.Action -> DispatchFault)
  (lowerNonAscii : jsstring -> N -> jsstring -> jsstring)
  (eventsM : list Mock.Event)
  (faultR : Remote.Action -> DispatchFault) (eventsR : list Remote.Event) :
  mockUsers trimmed
    (Mock.store (Mock.run faultM lowerNonAscii eventsM Mock.initialApp))
  /\ remoteUsers trimmed
       (Remote.store (Remote.run faultR eventsR Remote.initialApp)).
Proof.
  split.
  - apply (mock_run_preserves faultM lowerNonAscii
             (fun w => mockUsers trimmed (Mock.store w))).
    + apply mock_handle_trimmed.
    + constructor.
  - apply (remote_run_store faultR (remoteUsers trimmed));
      try (intros x state H; exact H).
    + intros m Hm state H. unfold remoteUsers in *. simpl.
      apply Forall_app. split; [exact H | now constructor].
    + constructor.
Qed.

(** The conversation only grows: after any sequence of events, from any
    state of the page and whatever the store does on a dispatch, the
    messages that were there are still there, in place, at the head of
    the list.  The backend variant has a [setMessages] action that could
    replace them, and no handler ever dispatches it. *)
Theorem messages_only_grow
  (faultM : Mock.Action -> DispatchFault)
  (lowerNonAscii : jsstring -> N -> jsstring -> jsstring)
  (eventsM : list Mock.Event) (wm : Mock.App)
  (faultR : Remote.Action -> DispatchFault) (eventsR : list Remote.Event)
  (wr : Remote.App) :
  (exists more,
     Mock.messages (Mock.store (Mock.run faultM lowerNonAscii eventsM wm))
     = Mock.messages (Mock.store wm) ++ more)
  /\ (exists more,
        Remote.messages (Remote.store (Remote.run faultR eventsR wr))
        = Remote.messages (Remote.store wr) ++ more).
Proof.
  split.
  - apply (run_keeps faultM lowerNonAscii
             (fun state => exists more,
                  Mock.messages state = Mock.messages (Mock.store wm) ++ more)).
    + intros state action [more H].
      destruct action; simpl; try (now exists more).
      exists (more ++ [payload]). now rewrite H, app_assoc.
    + exists []. now rewrite app_nil_r.
  - apply (remote_run_store faultR
             (fun state => exists more,
                  Remote.messages state = Remote.messages (Remote.store wr) ++ more));
      try (intros x state [more H]; now exists more).
    + intros m _ state [more H]. exists (more ++ [m]). simpl.
      now rewrite H, app_assoc.
    + exists []. now rewrite app_nil_r.
Qed.

(** In the backend variant the chat and the document panel keep to
    their own fields of the store, whatever the store does on a
    dispatch and however the requests settle: [handleSendMessage],
    entered at its start or after its request, leaves the documents,
    [indexedCount] and [isIndexing] alone; [handleFileUpload] and
    [fetchStatusAndDocuments], entered anywhere, leave the messages and
    [isProcessing] alone, and a refresh on its own leaves [isIndexing]
    alone too. *)
Theorem remote_handlers_keep_to_their_fields
  (fault : Remote.Action -> DispatchFault) (w : Remote.App) :
  (forall (pt : Remote.SendPoint) (clock : Clock),
     let w' := snd (Remote.handleSendMessage fault pt clock w) in
     Remote.documents (Remote.store w') = Remote.documents (Remote.store w)
     /\ Remote.indexedCount (Remote.store w') = Remote.indexedCount (Remote.store w)
     /\ Remote.isIndexing (Remote.store w') = Remote.isIndexing (Remote.store w))
  /\ (forall pt : Remote.UploadPoint,
        let w' := snd (Remote.handleFileUpload fault pt w) in
        Remote.messages (Remote.store w') = Remote.messages (Remote.store w)
        /\ Remote.isProcessing (Remote.store w') = Remote.isProcessing (Remote.store w))
  /\ (forall (caller : Remote.Caller) (pt : Remote.FetchPoint),
        let w' := snd (Remote.fetchStatusAndDocuments fault caller pt w) in
        Remote.messages (Remote.store w') = Remote.messages (Remote.store w)
        /\ Remote.isProcessing (Remote.store w') = Remote.isProcessing (Remote.store w)
        /\ Remote.isIndexing (Remote.store w') = Remote.isIndexing (Remote.store w)).
Proof.
  split; [| split].
  - intros pt clock.
    apply (remote_send_store fault
             (fun state =>
                Remote.documents state = Remote.documents (Remote.store w)
                /\ Remote.indexedCount state = Remote.indexedCount (Remote.store w)
                /\ Remote.isIndexing state = Remote.isIndexing (Remote.store w)));
      try (intros x state H; exact H); try (intros x y state H; exact H).
    repeat split.
  - intros pt.
    apply (remote_upload_store fault
             (fun state =>
                Remote.messages state = Remote.messages (Remote.store w)
                /\ Remote.isProcessing state = Remote.isProcessing (Remote.store w)));
      try (intros x state H; exact H).
    repeat split.
  - intros caller pt.
    apply (remote_fetch_store fault
             (fun state =>
                Remote.messages state = Remote.messages (Remote.store w)
                /\ Remote.isProcessing state = Remote.isProcessing (Remote.store w)
                /\ Remote.isIndexing state = Remote.isIndexing (Remote.store w)));
      try (intros x state H; exact H).
    repeat split.
Qed.

Section MockFrames.

Import Mock.

Variable fault : Action -> DispatchFault.
Variable lowerNonAscii : jsstring -> N -> jsstring -> jsstring.
Variable I : ChatState -> Prop.

Lemma mock_send_store (clock : Clock) :
  (forall m state, I state -> I (reducer state (addMessage m))) ->
  (forall b state, I state -> I (reducer state (setIsProcessing b))) ->
  preserves (fun w => I (store w)) (handleSendMessage fault clock).
Proof.
  intros Hadd Hbusy. unfold handleSendMessage.
  apply preserves_bind; [apply preserves_gets | intros text].
  apply preserves_bind; [apply preserves_gets | intros busy].
  destruct (negb (truthy (trim text)) || busy); [apply preserves_ret|].
  apply preserves_bind; [apply mock_dispatch_store, Hadd | intros _].
  apply preserves_bind; [apply mock_setInput_store | intros _].
  apply preserves_bind; [apply mock_dispatch_store, Hbusy | intros _].
  apply mock_setTimeout_store.
Qed.

Lemma mock_reply_store (userMessage : Message) (clock : Clock) :
  (forall m state, I state -> I (reducer state (addMessage m))) ->
  (forall b state, I state -> I (reducer state (setIsProcessing b))) ->
  preserves (fun w => I (store w))
    (runCallback fault lowerNonAscii (replyTo userMessage) clock).
Proof.
  intros Hadd Hbusy. simpl.
  apply preserves_bind; [apply mock_dispatch_store, Hadd | intros _].
  apply mock_dispatch_store, Hbusy.
Qed.

Lemma mock_index_store :
  (forall state, I state -> I (reducer state simulateIndexing)) ->
  (forall b state, I state -> I (reducer state (setIsIndexing b))) ->
  preserves (fun w => I (store w)) (handleIndexDocuments fault)
  /\ forall clock,
       preserves (fun w => I (store w))
         (runCallback fault lowerNonAscii finishIndexing clock).
Proof.
  intros Hsim Hidx. split; [| intros clock; simpl].
  - unfold handleIndexDocuments.
    apply preserves_bind; [apply mock_dispatch_store, Hidx | intros _].
    apply mock_setTimeout_store.
  - apply preserves_bind; [apply mock_dispatch_store, Hsim | intros _].
    apply mock_dispatch_store, Hidx.
Qed.

End MockFrames.

(** In the mock variant too the chat and the document panel keep to
    their own fields of the store, whatever the store does on a
    dispatch: [handleSendMessage] and its timeout leave the documents
    and [isIndexing] alone, [handleIndexDocuments] and its timeout leave
    the messages and [isProcessing] alone. *)
Theorem mock_handlers_keep_to_their_fields
  (fault : Mock.Action -> DispatchFault)
  (lowerNonAscii : jsstring -> N -> jsstring -> jsstring) (w : Mock.App) :
  (forall clock : Clock,
     let w' := snd (Mock.handleSendMessage fault clock w) in
     Mock.documents (Mock.store w') = Mock.documents (Mock.store w)
     /\ Mock.isIndexing (Mock.store w') = Mock.isIndexing (Mock.store w))
  /\ (forall (userMessage : Mock.Message) (clock : Clock),
        let w' := snd (Mock.runCallback fault lowerNonAscii
                         (Mock.replyTo userMessage) clock w) in
        Mock.documents (Mock.store w') = Mock.documents (Mock.store w)
        /\ Mock.isIndexing (Mock.store w') = Mock.isIndexing (Mock.store w))
  /\ (let w' := snd (Mock.handleIndexDocuments fault w) in
      Mock.messages (Mock.store w') = Mock.messages (Mock.store w)
      /\ Mock.isProcessing (Mock.store w') = Mock.isProcessing (Mock.store w))
  /\ (forall clock : Clock,
        let w' := snd (Mock.runCallback fault lowerNonAscii
                         Mock.finishIndexing clock w) in
        Mock.messages (Mock.store w') = Mock.messages (Mock.store w)
        /\ Mock.isProcessing (Mock.store w') = Mock.isProcessing (Mock.store w)).
Proof.
  pose (chat := fun state =>
          Mock.documents state = Mock.documents (Mock.store w)
          /\ Mock.isIndexing state = Mock.isIndexing (Mock.store w)).
  pose (panel := fun state =>
          Mock.messages state = Mock.messages (Mock.store w)
          /\ Mock.isProcessing state = Mock.isProcessing (Mock.store w)).
  assert (Hchat : (forall m state, chat state -> chat (Mock.reducer state (Mock.addMessage m)))
                  /\ (forall b state, chat state ->
                        chat (Mock.reducer state (Mock.setIsProcessing b))))
    by (split; intros x state H; exact H).
  assert (Hpanel : (forall state, panel state -> panel (Mock.reducer state Mock.simulateIndexing))
                   /\ (forall b state, panel state ->
                         panel (Mock.reducer state (Mock.setIsIndexing b))))
    by (split; [intros state H | intros x state H]; exact H).
  destruct Hchat as [Hadd Hbusy], Hpanel as [Hsim Hidx].
  destruct (mock_index_store fault lowerNonAscii panel Hsim Hidx) as [Hclick Hfin].
  split; [| split; [| split]].
  - intros clock. apply (mock_send_store fault chat clock Hadd Hbusy w).
    now split.
  - intros u clock.
    apply (mock_reply_store fault lowerNonAscii chat u clock Hadd Hbusy w).
    now split.
  - apply (Hclick w). now split.
  - intros clock. apply (Hfin clock w). now split.
Qed.

(** ** Message ids *)

Lemma js_injective (a b : string) : js a = js b -> a = b.
Proof.
  unfold js. intros H.
  apply (f_equal (map ascii_of_N)) in H.
  rewrite !map_map in H.
  rewrite !(map_ext _ (fun x => x) ascii_N_embedding), !map_id in H.
  apply (f_equal string_of_list_ascii) in H.
  now rewrite !string_of_list_ascii_of_string in H.
Qed.

Lemma toString_injective (n m : N) : toString n = toString m -> n = m.
Proof.
  unfold toString. intros H. apply js_injective in H.
  apply (f_equal NilEmpty.uint_of_string) in H.
  rewrite !NilEmpty.usu in H. inversion H as [H'].
  apply (f_equal N.of_uint) in H'.
  now rewrite !DecimalN.Unsigned.of_to in H'.
Qed.

Lemma nth_error_snoc {A} (l : list A) (x : A) :
  nth_error (l ++ [x]) (List.length l) = Some x.
Proof.
  rewrite nth_error_app2 by reflexivity. now rewrite Nat.sub_diag.
Qed.

(** When a question is sent and answered, the answer never shares its
    id with the question, provided the clock has not run backwards in
    between: the question's id is the reading of the clock when it was
    sent, the answer's id is the reading when it is built plus one.  So
    the two differ even when the answer is built in the millisecond of
    the question.  This holds for the resolver's answer in the mock
    variant and, in the backend variant, for the backend's answer and
    for the connectivity-error message alike. *)
Theorem answer_id_differs_from_question_id
  (lowerNonAscii : jsstring -> N -> jsstring -> jsstring)
  (clock clock' : Clock) (wm : Mock.App) (wr : Remote.App)
  (o : Outcome Value) :
  truthy (trim (Mock.input wm)) = true ->
  Mock.isProcessing (Mock.store wm) = false ->
  truthy (trim (Remote.input wr)) = true ->
  Remote.isProcessing (Remote.store wr) = false ->
  (dateNow clock <= dateNow clock')%N ->
  (exists u a,
     Mock.messages
       (Mock.store
          (Mock.run noFault lowerNonAscii
             [Mock.send clock; Mock.fires (List.length (Mock.timers wm)) clock'] wm))
     = Mock.messages (Mock.store wm) ++ [u; a]
     /\ Mock.id u = toString (dateNow clock)
     /\ Mock.id a = toString (dateNow clock' + 1)
     /\ Mock.id u <> Mock.id a)
  /\ (exists u a,
        Remote.messages
          (Remote.store
             (Remote.run noFault
                [Remote.send clock;
                 Remote.settles (List.length (Remote.pending wr))
                   (Remote.chatReply o) clock'] wr))
        = Remote.messages (Remote.store wr) ++ [u; a]
        /\ Remote.id u = toString (dateNow clock)
        /\ Remote.id a = toString (dateNow clock' + 1)
        /\ Remote.id u <> Remote.id a).
Proof.
  intros Hm Hm' Hr Hr' Hclock.
  assert (Hid : toString (dateNow clock) <> toString (dateNow clock' + 1)).
  { intros H. apply toString_injective in H. lia. }
  split.
  - unfold Mock.run, fold_left, Mock.handle.
    unfold Mock.handleSendMessage, bind, gets. simpl.
    rewrite Hm, Hm'. simpl.
    unfold Mock.fireTimer. cbn [Mock.timers].
    rewrite nth_error_snoc. simpl.
    do 2 eexists. rewrite <- app_assoc. simpl.
    split; [reflexivity|]. repeat split. exact Hid.
  - unfold Remote.run, fold_left, Remote.handle.
    unfold Remote.handleSendMessage, bind, gets. simpl.
    rewrite Hr, Hr'. simpl.
    unfold Remote.settle. cbn [Remote.pending].
    rewrite nth_error_snoc.
    destruct o as [[|[]]|]; simpl;
      do 2 eexists; rewrite <- app_assoc; simpl;
      (split; [reflexivity|]); repeat split; exact Hid.
Qed.

Lemma answer_id_differs_from_question_id_witness :
  (exists u a,
     Mock.messages
       (Mock.store
          (Mock.run noFault keepNonAscii [Mock.send noon; Mock.fires 0 noon]
             (Mock.run noFault keepNonAscii [Mock.change (js "hello")] Mock.initialApp)))
     = [u; a]
     /\ Mock.id u = toString (dateNow noon)
     /\ Mock.id a = toString (dateNow noon + 1)
     /\ Mock.id u <> Mock.id a)
  /\ (exists u a,
        Remote.messages
          (Remote.store
             (Remote.run noFault
                [Remote.send noon; Remote.settles 0 (Remote.chatReply Rejected) noon]
                (Remote.run noFault [Remote.change (js "hello")] Remote.initialApp)))
        = [u; a]
        /\ Remote.id u = toString (dateNow noon)
        /\ Remote.id a = toString (dateNow noon + 1)
        /\ Remote.id u <> Remote.id a).
Proof.
  apply (answer_id_differs_from_question_id keepNonAscii noon noon
           (Mock.run noFault keepNonAscii [Mock.change (js "hello")] Mock.initialApp)
           (Remote.run noFault [Remote.change (js "hello")] Remote.initialApp)
           Rejected); first [reflexivity | simpl; lia].
Defined.

(** ** The shape of the conversation *)

Lemma nth_error_remove {A} (l : list A) (i : nat) (x : A) :
  nth_error l i = Some x -> l = firstn i l ++ x :: skipn (S i) l.
Proof.
  revert i; induction l as [|y l IH]; intros [|i] H; simpl in *; try discriminate.
  - now inversion H.
  - f_equal. now apply IH.
Qed.

Section MockConversation.

Import Mock.

Variable lowerNonAscii : jsstring -> N -> jsstring -> jsstring.

Lemma awaitedReplies_app (a b : list Timer) :
  awaitedReplies (a ++ b) = awaitedReplies a ++ awaitedReplies b.
Proof. apply flat_map_app. Qed.

Lemma awaitedReplies_remove (l : list Timer) (i : nat) (t : Timer) :
  nth_error l i = Some t ->
  awaitedReplies l
  = awaitedReplies (firstn i l)
      ++ awaitedReplies [t] ++ awaitedReplies (skipn (S i) l).
Proof.
  intros H. rewrite (nth_error_remove l i t H) at 1.
  rewrite awaitedReplies_app.
  change (t :: skipn (S i) l) with ([t] ++ skipn (S i) l).
  now rewrite awaitedReplies_app.
Qed.

Lemma mockConversation_handle (e : Event) :
  preserves (mockConversation lowerNonAscii) (handle noFault lowerNonAscii e).
Proof.
  intros w H. unfold mockConversation in *.
  destruct e as [value|clock| |i clock]; cbn [handle].
  - exact H.
  - unfold handleSendMessage, bind, gets. simpl.
    destruct (truthy (trim (input w))); simpl; [| exact H].
    destruct (isProcessing (store w)) eqn:Hbusy; simpl.
    + rewrite Hbusy. exact H.
    + destruct H as [Hans Hnone].
      eexists _, _. split; [reflexivity|]. split; [exact Hans|].
      split; [reflexivity|].
      now rewrite awaitedReplies_app, Hnone.
  - simpl.
    destruct (isProcessing (store w)).
    + destruct H as (ms & u & Hms & Hans & Hu & Hone).
      exists ms, u. repeat split; auto.
      now rewrite awaitedReplies_app, Hone.
    + destruct H as [Hans Hnone]. split; [exact Hans|].
      now rewrite awaitedReplies_app, Hnone.
  - unfold fireTimer.
    destruct (nth_error (timers w) i) as [t|] eqn:Ht; [| exact H].
    pose proof (awaitedReplies_remove _ _ _ Ht) as Hsplit.
    destruct t as [[u'|] ms']; simpl in Hsplit |- *.
    + destruct (isProcessing (store w)).
      * destruct H as (ms & u & Hms & Hans & Hu & Hone).
        rewrite Hone in Hsplit.
        destruct (awaitedReplies (firstn i (timers w))) as [|x l1] eqn:E1;
          [| destruct l1; discriminate].
        simpl in Hsplit. inversion Hsplit as [[Hu' Hrest]]. subst u'.
        split; [| now rewrite awaitedReplies_app, E1, <- Hrest].
        rewrite Hms, <- app_assoc. simpl.
        now apply answered_more.
      * destruct H as [Hans Hnone]. rewrite Hnone in Hsplit.
        destruct (awaitedReplies (firstn i (timers w))); discriminate.
    + rewrite awaitedReplies_app, <- Hsplit. exact H.
Qed.

Lemma mockConversation_run (events : list Event) (w : App) :
  mockConversation lowerNonAscii w ->
  mockConversation lowerNonAscii (run noFault lowerNonAscii events w).
Proof.
  apply mock_run_preserves. exact mockConversation_handle.
Qed.

End MockConversation.

Section MockGestures.

Import Mock.

Variable fault : Action -> DispatchFault.
Variable lowerNonAscii : jsstring -> N -> jsstring -> jsstring.

Lemma mock_run_app (events events' : list Event) (w : App) :
  run fault lowerNonAscii (events ++ events') w
  = run fault lowerNonAscii events' (run fault lowerNonAscii events w).
Proof. apply fold_left_app. Qed.

(** Each gesture does what some event does, or nothing. *)
Lemma mock_perform_as_run (g : MockView.Gesture) (w : App) :
  exists events,
    snd (MockView.perform fault lowerNonAscii g w) = run fault lowerNonAscii events w.
Proof.
  unfold MockView.perform.
  destruct (MockView.available w g); [| now exists []].
  destruct g as [value|clock|e clock| |i clock].
  - now exists [change value].
  - now exists [send clock].
  - unfold MockView.handleKeyPress.
    destruct (strictEquals (key e) (js "Enter") && negb (shiftKey e)).
    + now exists [send clock].
    + now exists [].
  - now exists [reindex].
  - now exists [fires i clock].
Qed.

Lemma mock_use_as_run (gestures : list MockView.Gesture) (w : App) :
  exists events,
    MockView.use fault lowerNonAscii gestures w = run fault lowerNonAscii events w.
Proof.
  revert w; induction gestures as [|g gestures IH]; intros w; simpl.
  - now exists [].
  - destruct (mock_perform_as_run g w) as [events ->].
    destruct (IH (run fault lowerNonAscii events w)) as [events' ->].
    exists (events ++ events'). now rewrite mock_run_app.
Qed.

End MockGestures.

(** On the mock page, when every dispatch completes, the conversation is
    always in order, after any sequence of events and so after anything
    the user can do through the controls: user and assistant messages
    alternate; each assistant message carries, as content and sources,
    what the resolver gives for the user message right before it; while
    [isProcessing] holds the last message is a user message with exactly
    one reply timeout pending, for that message; and while it does not,
    every question is answered and no reply timeout is pending. *)
Theorem mock_conversation_in_order
  (lowerNonAscii : jsstring -> N -> jsstring -> jsstring)
  (events : list Mock.Event) (gestures : list MockView.Gesture) :
  mockConversation lowerNonAscii
    (Mock.run noFault lowerNonAscii events Mock.initialApp)
  /\ mockConversation lowerNonAscii
       (MockView.use noFault lowerNonAscii gestures Mock.initialApp).
Proof.
  assert (H0 : mockConversation lowerNonAscii Mock.initialApp)
    by (split; [constructor | reflexivity]).
  split.
  - now apply mockConversation_run.
  - destruct (mock_use_as_run noFault lowerNonAscii gestures Mock.initialApp)
      as [events' ->].
    now apply mockConversation_run.
Qed.

(** ** The controls *)

Section MockControls.

Import Mock.

Variable lowerNonAscii : jsstring -> N -> jsstring -> jsstring.

Lemma indexTimers_app (a b : list Timer) :
  indexTimers (a ++ b) = indexTimers a + indexTimers b.
Proof. unfold indexTimers. now rewrite filter_app, length_app. Qed.

Lemma indexTimers_remove (l : list Timer) (i : nat) (t : Timer) :
  nth_error l i = Some t ->
  indexTimers l
  = indexTimers (firstn i l ++ skipn (S i) l)
    + match callback t with finishIndexing => 1 | replyTo _ => 0 end.
Proof.
  intros H. rewrite (nth_error_remove l i t H) at 1.
  change (t :: skipn (S i) l) with ([t] ++ skipn (S i) l).
  rewrite !indexTimers_app. unfold indexTimers at 2. simpl.
  destruct (callback t); simpl; lia.
Qed.

Lemma mockControls_send (clock : Clock) :
  preserves mockControlsInOrder (handleSendMessage noFault clock).
Proof.
  intros w [Hidx Hinput]. unfold handleSendMessage, bind, gets. simpl.
  destruct (truthy (trim (input w))); simpl; [| now split].
  destruct (isProcessing (store w)) eqn:Hbusy; simpl.
  - split; [exact Hidx | now rewrite Hbusy].
  - split; [| reflexivity]. cbn [timers store isIndexing].
    rewrite indexTimers_app, Hidx. unfold indexTimers. simpl. lia.
Qed.

Lemma mockControls_perform (g : MockView.Gesture) :
  preserves mockControlsInOrder (MockView.perform noFault lowerNonAscii g).
Proof.
  intros w H. unfold MockView.perform.
  destruct (MockView.available w g) eqn:Hav; [| exact H].
  destruct g as [value|clock|e clock| |i clock]; simpl in Hav.
  - destruct H as [Hidx Hinput]. split; [exact Hidx|]. simpl.
    unfold MockView.textareaDisabled in Hav.
    now destruct (isProcessing (store w)).
  - now apply mockControls_send.
  - unfold MockView.handleKeyPress.
    destruct (strictEquals (key e) (js "Enter") && negb (shiftKey e));
      [| exact H].
    now apply (mockControls_send clock w).
  - destruct H as [Hidx Hinput].
    unfold MockView.indexDisabled in Hav.
    destruct (isIndexing (store w)) eqn:E; [discriminate|].
    unfold handleIndexDocuments, bind. simpl. split; [| exact Hinput].
    cbn [timers store isIndexing reducer]. rewrite indexTimers_app, Hidx. reflexivity.
  - destruct H as [Hidx Hinput]. unfold fireTimer.
    destruct (nth_error (timers w) i) as [t|] eqn:Ht; [| now split].
    pose proof (indexTimers_remove _ _ _ Ht) as Hsplit.
    destruct t as [[u|] ms]; unfold mockControlsInOrder; simpl in Hsplit |- *.
    + split; [| exact I]. lia.
    + split; [| exact Hinput].
      destruct (isIndexing (store w)); lia.
Qed.

Lemma mockControls_use (gestures : list MockView.Gesture) (w : App) :
  mockControlsInOrder w ->
  mockControlsInOrder (MockView.use noFault lowerNonAscii gestures w).
Proof.
  revert w; induction gestures as [|g gestures IH]; intros w H; simpl.
  - exact H.
  - apply IH. now apply mockControls_perform.
Qed.

End MockControls.

(** On the mock page, when every dispatch completes, whatever the user
    does through the controls: a timeout of [handleIndexDocuments] is
    pending exactly while [isIndexing] holds, and never more than one,
    because the index button is disabled meanwhile; and while
    [isProcessing] holds the input is empty, because the textarea is
    disabled after [handleSendMessage] has cleared it. *)
Theorem mock_controls_in_order
  (lowerNonAscii : jsstring -> N -> jsstring -> jsstring)
  (gestures : list MockView.Gesture) :
  mockControlsInOrder (MockView.use noFault lowerNonAscii gestures Mock.initialApp).
Proof.
  apply mockControls_use. split; [reflexivity | exact I].
Qed.

(** The handler itself does not refuse a second call: without the
    disabled button, two calls of [handleIndexDocuments] set two
    timeouts, and the first to fire drops [isIndexing] while the second
    is still pending. *)
Example handleIndexDocuments_twice :
  let w := Mock.run noFault keepNonAscii
             [Mock.reindex; Mock.reindex; Mock.fires 0 noon] Mock.initialApp in
  Mock.isIndexing (Mock.store w) = false /\ indexTimers (Mock.timers w) = 1.
Proof. split; reflexivity. Qed.

(** ** The backend variant: conversation and uploads *)

Section RemoteConversation.

Import Remote.

Lemma awaitedChats_app (a b : list Pending) :
  awaitedChats (a ++ b) = awaitedChats a ++ awaitedChats b.
Proof. apply flat_map_app. Qed.

Lemma awaitedChats_remove (l : list Pending) (i : nat) (p : Pending) :
  nth_error l i = Some p ->
  awaitedChats l
  = awaitedChats (firstn i l) ++ awaitedChats [p] ++ awaitedChats (skipn (S i) l).
Proof.
  intros H. rewrite (nth_error_remove l i p H) at 1.
  rewrite awaitedChats_app.
  change (p :: skipn (S i) l) with ([p] ++ skipn (S i) l).
  now rewrite awaitedChats_app.
Qed.

(** The conversation is judged on the messages, [isProcessing] and the
    chat requests in flight alone. *)
Lemma remoteConversation_same (w w' : App) :
  messages (store w') = messages (store w) ->
  isProcessing (store w') = isProcessing (store w) ->
  awaitedChats (pending w') = awaitedChats (pending w) ->
  remoteConversation w -> remoteConversation w'.
Proof.
  unfold remoteConversation. intros -> -> ->. auto.
Qed.

Lemma remote_fetch_quiet (caller : Caller) (pt : FetchPoint) (w : App) :
  let w' := snd (fetchStatusAndDocuments noFault caller pt w) in
  messages (store w') = messages (store w)
  /\ isProcessing (store w') = isProcessing (store w)
  /\ awaitedChats (pending w') = awaitedChats (pending w).
Proof.
  destruct pt as [|[statusData|]|[documentsData|]]; simpl;
    rewrite ?awaitedChats_app, ?app_nil_r; auto.
Qed.

Lemma remote_upload_quiet (pt : UploadPoint) (w : App) :
  let w' := snd (handleFileUpload noFault pt w) in
  messages (store w') = messages (store w)
  /\ isProcessing (store w') = isProcessing (store w)
  /\ awaitedChats (pending w') = awaitedChats (pending w).
Proof.
  destruct pt as [[file|]|[[]|]|[|[statusData|]|[documentsData|]]]; simpl;
    rewrite ?awaitedChats_app, ?app_nil_r; auto.
Qed.

Lemma remoteConversation_send (clock : Clock) :
  preserves remoteConversation (handleSendMessage noFault sendClick clock).
Proof.
  intros w H. unfold remoteConversation in *.
  unfold handleSendMessage, bind, gets. simpl.
  destruct (truthy (trim (input w))); simpl; [| exact H].
  destruct (isProcessing (store w)) eqn:Hbusy; simpl.
  - rewrite Hbusy. exact H.
  - destruct H as [Hans Hnone].
    eexists _, _. split; [reflexivity|]. split; [exact Hans|].
    split; [reflexivity|].
    now rewrite awaitedChats_app, Hnone.
Qed.

Lemma remoteConversation_handle (e : Event) :
  preserves remoteConversation (handle noFault e).
Proof.
  intros w H.
  destruct e as [value|clock|file| |i reply clock]; cbn [handle].
  - exact H.
  - now apply remoteConversation_send.
  - destruct (remote_upload_quiet (uploadChange file) w) as (H1 & H2 & H3).
    now apply (remoteConversation_same w).
  - destruct (remote_fetch_quiet fromEffect fetchStart w) as (H1 & H2 & H3).
    now apply (remoteConversation_same w).
  - unfold settle.
    destruct (nth_error (pending w) i) as [request|] eqn:Hreq; [| exact H].
    pose proof (awaitedChats_remove _ _ _ Hreq) as Hsplit.
    assert (Hquiet : awaitedChats [request] = [] ->
                     remoteConversation (clearPending i w)).
    { intros Hnil. rewrite Hnil in Hsplit. cbn [app] in Hsplit.
      apply (remoteConversation_same w); auto.
      unfold clearPending; cbn [pending]. now rewrite awaitedChats_app. }
    destruct request as [u'|f|caller|caller].
    + destruct reply as [o|o|o|o]; cbn [resume]; try exact H.
      unfold remoteConversation in *.
      change (awaitedChats [awaitChat u']) with [u'] in Hsplit.
      destruct (isProcessing (store w)).
      * destruct H as (ms & u & Hms & Hans & Hu & Hone).
        rewrite Hone in Hsplit.
        destruct (awaitedChats (firstn i (pending w))) as [|x l1] eqn:E1;
          [| destruct l1; discriminate].
        cbn [app] in Hsplit. inversion Hsplit as [[Hu' Hrest]]. subst u'.
        assert (Hnone : awaitedChats (pending (clearPending i w)) = []).
        { unfold clearPending; cbn [pending].
          rewrite awaitedChats_app, E1. symmetry. exact Hrest. }
        destruct o as [[|[]]|]; simpl in Hnone |- *;
          (split; [| exact Hnone]);
          rewrite Hms, <- app_assoc; simpl;
          apply exchanged_more; auto.
      * destruct H as [Hans Hnone]. rewrite Hnone in Hsplit.
        destruct (awaitedChats (firstn i (pending w))); discriminate.
    + specialize (Hquiet eq_refl).
      destruct reply as [o|o|o|o]; cbn [resume]; try exact H.
      destruct (remote_upload_quiet (afterUpload o) (clearPending i w))
        as (H1 & H2 & H3).
      now apply (remoteConversation_same (clearPending i w)).
    + specialize (Hquiet eq_refl).
      destruct caller, reply as [o|o|o|o]; cbn [resume]; try exact H.
      * destruct (remote_fetch_quiet fromEffect (afterStatus o) (clearPending i w))
          as (H1 & H2 & H3).
        now apply (remoteConversation_same (clearPending i w)).
      * destruct (remote_upload_quiet (inRefresh (afterStatus o)) (clearPending i w))
          as (H1 & H2 & H3).
        now apply (remoteConversation_same (clearPending i w)).
    + specialize (Hquiet eq_refl).
      destruct caller, reply as [o|o|o|o]; cbn [resume]; try exact H.
      * destruct (remote_fetch_quiet fromEffect (afterDocuments o) (clearPending i w))
          as (H1 & H2 & H3).
        now apply (remoteConversation_same (clearPending i w)).
      * destruct (remote_upload_quiet (inRefresh (afterDocuments o)) (clearPending i w))
          as (H1 & H2 & H3).
        now apply (remoteConversation_same (clearPending i w)).
Qed.

Lemma remoteConversation_run (events : list Event) (w : App) :
  remoteConversation w -> remoteConversation (run noFault events w).
Proof.
  revert w; induction events as [|e events IH]; intros w H; simpl; [exact H|].
  apply IH. now apply remoteConversation_handle.
Qed.

End RemoteConversation.

Section RemoteGestures.

Import Remote.

Variable fault : Action -> DispatchFault.

Lemma remote_run_app (events events' : list Event) (w : App) :
  run fault (events ++ events') w = run fault events' (run fault events w).
Proof. apply fold_left_app. Qed.

(** Each gesture does what some event does, or nothing. *)
Lemma remote_perform_as_run (g : RemoteView.Gesture) (w : App) :
  exists events, snd (RemoteView.perform fault g w) = run fault events w.
Proof.
  unfold RemoteView.perform.
  destruct (RemoteView.available w g); [| now exists []].
  destruct g as [value|clock|e clock|file| |i reply clock].
  - now exists [change value].
  - now exists [send clock].
  - unfold RemoteView.handleKeyPress.
    destruct (strictEquals (key e) (js "Enter") && negb (shiftKey e)).
    + now exists [send clock].
    + now exists [].
  - now exists [chooseFile file].
  - now exists [refresh].
  - now exists [settles i reply clock].
Qed.

Lemma remote_use_as_run (gestures : list RemoteView.Gesture) (w : App) :
  exists events, RemoteView.use fault gestures w = run fault events w.
Proof.
  revert w; induction gestures as [|g gestures IH]; intros w; simpl.
  - now exists [].
  - destruct (remote_perform_as_run g w) as [events ->].
    destruct (IH (run fault events w)) as [events' ->].
    exists (events ++ events'). now rewrite remote_run_app.
Qed.

End RemoteGestures.

(** On the backend page, when every dispatch completes, the conversation
    is always in order, after any sequence of events and so after
    anything the user and the backend can do, whatever the replies
    carry: user and assistant messages alternate; while [isProcessing]
    holds the last message is a user message with exactly one chat
    request in flight, for that message; and while it does not, every
    question is answered and no chat request is in flight. *)
Theorem remote_conversation_in_order
  (events : list Remote.Event) (gestures : list RemoteView.Gesture) :
  remoteConversation (Remote.run noFault events Remote.initialApp)
  /\ remoteConversation (RemoteView.use noFault gestures Remote.initialApp).
Proof.
  assert (H0 : remoteConversation Remote.initialApp)
    by (split; [constructor | reflexivity]).
  split.
  - now apply remoteConversation_run.
  - destruct (remote_use_as_run noFault gestures Remote.initialApp) as [events' ->].
    now apply remoteConversation_run.
Qed.

Section RemoteControls.

Import Remote.

Lemma uploadFlows_app (a b : list Pending) :
  uploadFlows (a ++ b) = uploadFlows a + uploadFlows b.
Proof. unfold uploadFlows. now rewrite filter_app, length_app. Qed.

Lemma uploadFlows_remove (l : list Pending) (i : nat) (p : Pending) :
  nth_error l i = Some p ->
  uploadFlows l = uploadFlows (firstn i l ++ skipn (S i) l) + uploadFlows [p].
Proof.
  intros H. rewrite (nth_error_remove l i p H) at 1.
  change (p :: skipn (S i) l) with ([p] ++ skipn (S i) l).
  rewrite !uploadFlows_app. lia.
Qed.

Ltac count_flows :=
  rewrite ?uploadFlows_app;
  repeat match goal with
         | |- context [uploadFlows [?p]] =>
             first [ change (uploadFlows [p]) with 1
                   | change (uploadFlows [p]) with 0 ]
         end.

Lemma remoteControls_send (clock : Clock) :
  preserves remoteControlsInOrder (handleSendMessage noFault sendClick clock).
Proof.
  intros w [Hflows Hinput]. unfold handleSendMessage, bind, gets. simpl.
  destruct (truthy (trim (input w))); simpl; [| now split].
  destruct (isProcessing (store w)) eqn:Hbusy; simpl.
  - split; [exact Hflows | now rewrite Hbusy].
  - split; [| reflexivity]. cbn [pending store isIndexing].
    count_flows. lia.
Qed.

Lemma remoteControls_settle (i : nat) (reply : Reply) (clock : Clock) :
  preserves remoteControlsInOrder (settle noFault i reply clock).
Proof.
  intros w [Hflows Hinput]. unfold settle.
  destruct (nth_error (pending w) i) as [request|] eqn:Hreq; [| now split].
  pose proof (uploadFlows_remove _ _ _ Hreq) as Hsplit.
  unfold remoteControlsInOrder.
  destruct request as [u|f|[]|[]], reply as [[[|[]]|]|[[]|]|[r|]|[r|]];
    cbn [resume]; try (now split);
    unfold uploadFlows at 3 in Hsplit; simpl in Hsplit |- *;
    rewrite uploadFlows_app in Hsplit; count_flows;
    (split; [| first [exact I | exact Hinput]]);
    destruct (isIndexing (store w)); lia.
Qed.

Lemma remoteControls_perform (g : RemoteView.Gesture) :
  preserves remoteControlsInOrder (RemoteView.perform noFault g).
Proof.
  intros w H. unfold RemoteView.perform.
  destruct (RemoteView.available w g) eqn:Hav; [| exact H].
  destruct g as [value|clock|e clock|file| |i reply clock]; simpl in Hav.
  - destruct H as [Hflows Hinput]. split; [exact Hflows|]. simpl.
    unfold RemoteView.textareaDisabled in Hav.
    now destruct (isProcessing (store w)).
  - now apply remoteControls_send.
  - unfold RemoteView.handleKeyPress.
    destruct (strictEquals (key e) (js "Enter") && negb (shiftKey e));
      [| exact H].
    now apply (remoteControls_send clock w).
  - destruct H as [Hflows Hinput].
    unfold RemoteView.uploadDisabled in Hav.
    destruct (isIndexing (store w)) eqn:E; [discriminate|].
    destruct file as [file|]; simpl;
      (split; [| exact Hinput]); cbn [pending store isIndexing reducer];
      count_flows; rewrite ?E; lia.
  - destruct H as [Hflows Hinput]. simpl. split; [| exact Hinput].
    cbn [pending store]. count_flows. lia.
  - now apply remoteControls_settle.
Qed.

Lemma remoteControls_use (gestures : list RemoteView.Gesture) (w : App) :
  remoteControlsInOrder w ->
  remoteControlsInOrder (RemoteView.use noFault gestures w).
Proof.
  revert w; induction gestures as [|g gestures IH]; intros w H; simpl.
  - exact H.
  - apply IH. now apply remoteControls_perform.
Qed.

End RemoteControls.

(** On the backend page, when every dispatch completes, whatever the
    user, the refresh interval and the backend do: requests of an upload
    (the upload itself, or a read of the refresh that follows it) are in
    flight exactly while [isIndexing] holds, and one at a time, because
    the upload button is disabled meanwhile; so the flag is dropped when
    the upload ends, however it ends, and never before.  And while
    [isProcessing] holds the input is empty. *)
Theorem remote_controls_in_order (gestures : list RemoteView.Gesture) :
  remoteControlsInOrder (RemoteView.use noFault gestures Remote.initialApp).
Proof.
  apply remoteControls_use. split; [reflexivity | exact I].
Qed.

(** ** What the document panel lets escape *)

(** [fetchStatusAndDocuments] never raises, wherever it is entered,
    however its request settled and whatever the store does on a
    dispatch: a rejected read and a raising dispatch both end in its
    [catch].  [handleFileUpload] raises only through its own two
    dispatches of [setIsIndexing], which lie outside its [try] or in its
    [finally]: when those complete, nothing escapes it either. *)
Theorem document_panel_swallows_exceptions (fault : Remote.Action -> DispatchFault) :
  (forall (caller : Remote.Caller) (pt : Remote.FetchPoint) (w : Remote.App) (e : Exn),
     fst (Remote.fetchStatusAndDocuments fault caller pt w) <> Throw e)
  /\ (fault (Remote.setIsIndexing true) = Completes ->
      fault (Remote.setIsIndexing false) = Completes ->
      forall (pt : Remote.UploadPoint) (w : Remote.App) (e : Exn),
        fst (Remote.handleFileUpload fault pt w) <> Throw e).
Proof.
  split.
  - intros caller pt w e.
    unfold Remote.fetchStatusAndDocuments, try_catch, bind, settled,
      Remote.dispatch, Remote.await, Remote.console_error, modify, ret, throw.
    destruct pt as [|[statusData|]|[documentsData|]]; simpl;
      try discriminate;
      match goal with
      | |- context [fault ?a] => destruct (fault a); simpl; discriminate
      end.
  - intros Hon Hoff pt w e.
    unfold Remote.handleFileUpload, Remote.fetchStatusAndDocuments, try_finally,
      try_catch, bind, settled, Remote.dispatch, Remote.await,
      Remote.console_error, modify, ret, throw.
    destruct pt as [[file|]|[[]|]|[|[statusData|]|[documentsData|]]]; simpl;
      rewrite ?Hon, ?Hoff; simpl; try discriminate;
      match goal with
      | |- context [match fault ?a with _ => _ end] =>
          destruct (fault a); simpl; rewrite ?Hoff; simpl; discriminate
      end.
Qed.

Lemma document_panel_swallows_exceptions_witness :
  fst (Remote.handleFileUpload panelUpdatesRaise
         (Remote.inRefresh (Remote.afterDocuments (Fulfilled [])))
         Remote.initialApp)
  <> Throw DispatchError.
Proof.
  apply (document_panel_swallows_exceptions panelUpdatesRaise); reflexivity.
Defined.

(** ** An upload that succeeds *)

Lemma remove_snoc {A} (l : list A) (x : A) :
  firstn (List.length l) (l ++ [x]) ++ skipn (S (List.length l)) (l ++ [x]) = l.
Proof.
  rewrite firstn_app, Nat.sub_diag, firstn_all.
  rewrite skipn_app, skipn_all2 by lia.
  replace (S (List.length l) - List.length l) with 1 by lia.
  simpl. now rewrite !app_nil_r.
Qed.

(** The request just sent is the last in flight; when it settles, the
    handler suspended on it goes on from the page without it. *)
Lemma settle_latest (fault : Remote.Action -> DispatchFault) (w : Remote.App)
  (request : Remote.Pending) (reply : Remote.Reply) (clock : Clock)
  (k : M Remote.App unit) :
  Remote.resume fault request reply clock = Some k ->
  Remote.settle fault (List.length (Remote.pending w)) reply clock
    (snd (@Remote.await unit request w))
  = k w.
Proof.
  intros Hk. unfold Remote.settle, Remote.await. cbn [snd Remote.pending].
  rewrite nth_error_snoc, Hk. f_equal.
  unfold Remote.clearPending. cbn [Remote.pending Remote.store Remote.input
                                     Remote.console Remote.log].
  rewrite remove_snoc. now destruct w.
Qed.

(** An upload that succeeds, from any state of the page, when every
    dispatch completes: the file is chosen, then the upload, the status
    read and the document read are fulfilled one after the other.
    [isIndexing] holds from the choice of the file until the document
    read settles; at the end it is dropped, the store shows the reported
    count and the reported documents, no request of the upload is left
    in flight, and nothing else on the page has changed.  Four actions
    have reached the store, in this order: [setIsIndexing(true)],
    [setIndexedCount], [setDocuments], [setIsIndexing(false)]. *)
Theorem successful_upload_refreshes
  (w : Remote.App) (file : Remote.File) (statusData : Remote.StatusData)
  (docs : list Remote.Document) (clock : Clock) :
  let n := List.length (Remote.pending w) in
  let w1 := Remote.run noFault [Remote.chooseFile (Some file)] w in
  let w2 := Remote.run noFault
              [Remote.settles n (Remote.uploadReply (Fulfilled tt)) clock] w1 in
  let w3 := Remote.run noFault
              [Remote.settles n (Remote.statusReply (Fulfilled statusData)) clock] w2 in
  let w4 := Remote.run noFault
              [Remote.settles n (Remote.documentsReply (Fulfilled docs)) clock] w3 in
  Remote.isIndexing (Remote.store w1) = true
  /\ Remote.isIndexing (Remote.store w2) = true
  /\ Remote.isIndexing (Remote.store w3) = true
  /\ w4 = {| Remote.store :=
               {| Remote.messages := Remote.messages (Remote.store w);
                  Remote.isProcessing := Remote.isProcessing (Remote.store w);
                  Remote.documents := docs;
                  Remote.isIndexing := false;
                  Remote.indexedCount := Remote.indexed_count statusData |};
             Remote.input := Remote.input w;
             Remote.pending := Remote.pending w;
             Remote.console := Remote.console w;
             Remote.log :=
               Remote.log w
               ++ [ Remote.setIsIndexing true;
                    Remote.setIndexedCount (Remote.indexed_count statusData);
                    Remote.setDocuments docs;
                    Remote.setIsIndexing false ] |}.
Proof.
  intros n w1 w2 w3 w4.
  pose (started := Remote.commit (Remote.setIsIndexing true) w).
  pose (counted := Remote.commit
                     (Remote.setIndexedCount (Remote.indexed_count statusData)) started).
  assert (E1 : w1 = snd (@Remote.await unit (Remote.awaitUpload file) started))
    by reflexivity.
  assert (E2 : w2 = snd (@Remote.await unit (Remote.awaitStatus Remote.fromUpload) started)).
  { subst w2. unfold Remote.run, fold_left, Remote.handle. rewrite E1.
    subst n. change (Remote.pending w) with (Remote.pending started).
    now erewrite settle_latest by reflexivity. }
  assert (E3 : w3 = snd (@Remote.await unit (Remote.awaitDocuments Remote.fromUpload) counted)).
  { subst w3. unfold Remote.run, fold_left, Remote.handle. rewrite E2.
    subst n. change (Remote.pending w) with (Remote.pending started).
    now erewrite settle_latest by reflexivity. }
  split; [now rewrite E1 | split; [now rewrite E2 | split; [now rewrite E3 |]]].
  subst w4. unfold Remote.run, fold_left, Remote.handle. rewrite E3.
  subst n. change (Remote.pending w) with (Remote.pending counted).
  erewrite settle_latest by reflexivity.
  subst counted started. simpl. cbv [Remote.commit]. simpl.
  rewrite <- !app_assoc. reflexivity.
Qed.
